(** * tokyo-gourmet: candidate selection and travel-time estimation

    A shallow embedding of the Python backend
    ([backend/recommender.py], [backend/routes_client.py],
    [backend/site_generator.py], and the search, visited-set and
    pipeline loops of [backend/places_client.py],
    [backend/sheets_client.py] and [backend/run_weekly.py]) together
    with the properties the specification states about it and further
    properties read off the code.

    Conventions of the embedding.
    - A Python [int] is a [Z]; a Python [float] is an exact rational [Q]
      (binary64 rounding error is not modelled; the places where a value
      sits on a rounding tie are cross-checked on binary64 floats at the
      end of the file).
    - A [dict] read with [.get(key, default)] is a record of [option]
      fields; the getter applies the default.
    - A set of ids is a [gset string], a dict keyed by id a [gmap string].
    - An aware [datetime] is its number of microseconds since the epoch.
    - A raised exception is the [Raise] constructor of [result].
    - File contents, the clock, the log and the HTTP requests are fields
      of an explicit [world]; effectful functions are in the monad [M]. *)

From Stdlib Require Import ZArith QArith Qround Lia Lqa List Floats.
From Equations Require Import Equations.
From stdpp Require Import gmap strings list.

Local Open Scope Z_scope.

(* ===================================================================== *)
(** * Python values                                                       *)
(* ===================================================================== *)

Inductive exn : Type :=
| ValueError
| TypeError
| IndexError
| KeyError
| RequestException   (* requests: timeout or connection failure *)
| HTTPError.         (* requests: raise_for_status on a non-2xx answer *)

Inductive result (A : Type) : Type :=
| Ok (a : A)
| Raise (e : exn).
Arguments Ok {A} a.
Arguments Raise {A} e.

(** [round(x)] of a float: nearest integer, ties to the even one. *)
Definition py_round (x : Q) : Z :=
  let f := Qfloor x in
  match (x - inject_Z f ?= 1 # 2)%Q with
  | Lt => f
  | Gt => f + 1
  | Eq => if Z.even f then f else f + 1
  end.

(** [timedelta(days=1)] and [timedelta(weeks=1)] in microseconds. *)
Definition day_us : Z := 86400 * 1000000.
Definition week_us : Z := 7 * day_us.

(** What [datetime.fromisoformat] makes of a stored string. *)
Inductive isoformat : Type :=
| IsoMalformed            (* not ISO 8601: ValueError *)
| IsoNaive (t : Z)        (* no UTC offset *)
| IsoAware (t : Z).       (* with offset: an instant *)

(** The [travel_summary] strings, by the f-string that builds them. *)
Inductive summary : Type :=
| SummaryWalk (minutes : Z)
| SummaryEstimate (minutes : Z) (straight_km : Q)
| SummaryTransit (minutes : Z) (road_km : Q).

(** The dict returned by [compute_travel_time] and stored in the cache.
    [cached_at = None] stands for an absent key or an empty string. *)
Record travel_entry : Type := {
  travel_time_minutes : option Z;
  travel_cost_yen : option Z;
  travel_summary : summary;
  cached_at : option isoformat
}.

(* ===================================================================== *)
(** * backend/recommender.py                                              *)
(* ===================================================================== *)

Module Recommender.

(** A search result. [p_extra] stands for the keys the selection logic
    does not read (name, location, ...). *)
Record place : Type := {
  p_id : option string;
  p_userRatingCount : option Z;
  p_rating : option Q;
  p_extra : string
}.

(** One restaurant of a stored week, and one stored week of
    [history.json]. [w_generated_at = None] is a missing key. *)
Record history_restaurant : Type := {
  place_id : string;
  name : string;
  rating : option Q
}.

Record week_record : Type := {
  w_generated_at : option isoformat;
  w_week_label : string;
  w_restaurants : list history_restaurant
}.

(** [load_recent_history(weeks)]. [history_file = None] is a missing or
    undecodable file. *)
Fixpoint add_place_ids (rs : list history_restaurant) (recent_ids : gset string)
  : gset string :=
  match rs with
  | [] => recent_ids
  | r :: rs' => add_place_ids rs' (recent_ids ∪ {[ place_id r ]})
  end.

Fixpoint load_recent_loop (cutoff : Z) (weeks_list : list week_record)
    (recent_ids : gset string) : result (gset string) :=
  match weeks_list with
  | [] => Ok recent_ids
  | week :: rest =>
      match w_generated_at week with
      | None => Raise KeyError
      | Some IsoMalformed => Raise ValueError
      | Some (IsoNaive _) => Raise TypeError
      | Some (IsoAware week_date) =>
          if cutoff <=? week_date
          then load_recent_loop cutoff rest
                 (add_place_ids (w_restaurants week) recent_ids)
          else load_recent_loop cutoff rest recent_ids
      end
  end.

Definition load_recent_history (now : Z)
    (history_file : option (list week_record)) (weeks : Z)
  : result (gset string) :=
  match history_file with
  | None => Ok ∅
  | Some data =>
      let cutoff := now - weeks * week_us in
      load_recent_loop cutoff data ∅
  end.

(** [filter_candidates]. *)
Definition get_id (p : place) : string := default ""%string (p_id p).
Definition get_userRatingCount (p : place) : Z := default 0 (p_userRatingCount p).

Section Filter.
Variables (visited_ids recent_ids : gset string).
Variables (min_reviews max_travel_minutes : Z).
Variable (travel_info : gmap string travel_entry).

Fixpoint filter_loop (places filtered : list place) : list place :=
  match places with
  | [] => filtered
  | place :: rest =>
      let place_id := get_id place in
      if decide (place_id ∈ visited_ids) then filter_loop rest filtered
      else if decide (place_id ∈ recent_ids) then filter_loop rest filtered
      else
        let review_count := get_userRatingCount place in
        if review_count <? min_reviews then filter_loop rest filtered
        else
          match travel_info !! place_id with
          | Some entry =>
              match travel_time_minutes entry with
              | Some travel_mins =>
                  if max_travel_minutes <? travel_mins
                  then filter_loop rest filtered
                  else filter_loop rest (filtered ++ [place])
              | None => filter_loop rest (filtered ++ [place])
              end
          | None => filter_loop rest (filtered ++ [place])
          end
  end.
End Filter.

Definition filter_candidates (places : list place)
    (visited_ids recent_ids : gset string)
    (min_reviews max_travel_minutes : Z)
    (travel_info : option (gmap string travel_entry)) : list place :=
  let travel_info := default ∅ travel_info in
  filter_loop visited_ids recent_ids min_reviews max_travel_minutes
    travel_info places [].

(** [itertools.accumulate(weights)]: the running sums. *)
Fixpoint accumulate_from (acc : Q) (ws : list Q) : list Q :=
  match ws with
  | [] => []
  | w :: ws' => (acc + w)%Q :: accumulate_from (acc + w)%Q ws'
  end.

Definition accumulate (ws : list Q) : list Q :=
  match ws with
  | [] => []
  | w :: ws' => w :: accumulate_from w ws'
  end.

(** [bisect.bisect_right(a, x, lo, hi)]. *)
Definition Qlt_bool (x y : Q) : bool := negb (Qle_bool y x).

Equations? bisect_right (a : list Q) (x : Q) (lo hi : nat) : result nat
  by wf (hi - lo)%nat lt :=
  bisect_right a x lo hi with lt_dec lo hi := {
    | right _ := Ok lo
    | left _ with a !! ((lo + hi) / 2)%nat := {
        | None := Raise IndexError
        | Some a_mid with Qlt_bool x a_mid := {
            | true := bisect_right a x lo ((lo + hi) / 2)%nat
            | false := bisect_right a x ((lo + hi) / 2 + 1)%nat hi } } }.
Proof.
  all: assert ((lo + hi) / 2 < hi)%nat by (apply Nat.Div0.div_lt_upper_bound; lia).
  all: assert (lo <= (lo + hi) / 2)%nat by (apply Nat.div_le_lower_bound; lia).
  all: lia.
Qed.

(** [random.choices(population, weights=weights, k=1)[0]] as CPython
    defines it, with [u] the value [random()] returns for this draw.  The
    check that the total is finite is left out: a rational always is. *)
Definition choices {A : Type} (u : Q) (population : list A) (weights : list Q)
  : result A :=
  let n := length population in
  let cum_weights := accumulate weights in
  if negb (length cum_weights =? n)%nat then Raise ValueError
  else
    match last cum_weights with
    | None => Raise IndexError
    | Some total =>
        if Qle_bool total 0 then Raise ValueError
        else
          let hi := (n - 1)%nat in
          match bisect_right cum_weights (u * total)%Q 0 hi with
          | Raise e => Raise e
          | Ok i =>
              match population !! i with
              | Some x => Ok x
              | None => Raise IndexError
              end
          end
    end.

(** [list.index(x)] and [list.pop(pos)]. *)
Fixpoint index (x : nat) (l : list nat) : option nat :=
  match l with
  | [] => None
  | y :: l' => if (y =? x)%nat then Some 0%nat else S <$> index x l'
  end.

Definition pop {A : Type} (pos : nat) (l : list A) : list A :=
  take pos l ++ drop (S pos) l.

(** [weighted_random_pick]; [rnd k] is what the k-th call of [random()]
    returns. *)
Definition get_rating (c : place) : Q := default 4%Q (p_rating c).

Fixpoint pick_loop (rnd : nat -> Q) (candidates : list place)
    (iterations : nat) (k : nat)
    (selected : list place) (remaining : list nat) (remaining_weights : list Q)
  : result (list place) :=
  match iterations with
  | O => Ok selected
  | S iterations' =>
      match remaining with
      | [] => Ok selected
      | _ :: _ =>
          match choices (rnd k) remaining remaining_weights with
          | Raise e => Raise e
          | Ok chosen_idx =>
              match index chosen_idx remaining with
              | None => Raise ValueError
              | Some pos =>
                  match candidates !! chosen_idx with
                  | None => Raise IndexError
                  | Some c =>
                      pick_loop rnd candidates iterations' (S k)
                        (selected ++ [c])
                        (pop pos remaining) (pop pos remaining_weights)
                  end
              end
          end
      end
  end.

Definition weighted_random_pick (rnd : nat -> Q)
    (candidates : list place) (count : Z) : result (list place) :=
  if Z.of_nat (length candidates) <=? count then Ok candidates
  else
    let weights := map (fun c => (get_rating c ^ 2)%Q) candidates in
    pick_loop rnd candidates (Z.to_nat count) 0%nat
      [] (seq 0 (length candidates)) weights.

End Recommender.

(* ===================================================================== *)
(** * backend/routes_client.py                                            *)
(* ===================================================================== *)

Module RoutesClient.

(** One element of the [routes] array of the Routes API answer.
    [duration] is the number in front of the trailing "s". *)
Record route : Type := {
  duration : option Z;
  distanceMeters : option Z
}.

(** What [requests.post] followed by [raise_for_status] and [json]
    amounts to: an exception, or the [routes] array of the body
    ([data.get("routes", [])]). *)
Inductive http_outcome : Type :=
| HttpFails (e : exn)
| HttpOk (routes : list route).

Inductive log_event : Type :=
| LogCacheHit (place_id : string)
| LogRoutesCall (place_id : string).

(** A request body: origin and destination coordinates. *)
Definition request : Type := (Q * Q) * (Q * Q).

(** The mutable surroundings of the module. [station_cache_file = None]
    is a missing or undecodable cache file; [clock n] is what the n-th
    call of [datetime.now(JST)] returns. *)
Record world : Type := {
  station_cache_file : option (gmap string travel_entry);
  clock : nat -> Z;
  clock_reads : nat;
  routes_requests : list request;
  log : list log_event
}.

Definition M (A : Type) : Type := world -> result A * world.

Definition ret {A : Type} (a : A) : M A := fun w => (Ok a, w).
Definition raise {A : Type} (e : exn) : M A := fun w => (Raise e, w).
Definition bind {A B : Type} (m : M A) (f : A -> M B) : M B :=
  fun w =>
    match m w with
    | (Ok a, w') => f a w'
    | (Raise e, w') => (Raise e, w')
    end.

Notation "'let*' x ':=' m 'in' k" := (bind m (fun x => k))
  (at level 10, x name, m at level 100, k at level 200).
Notation "'run' m 'in' k" := (bind m (fun _ => k))
  (at level 10, m at level 100, k at level 200).

Definition datetime_now : M Z :=
  fun w =>
    (Ok (clock w (clock_reads w)),
     {| station_cache_file := station_cache_file w;
        clock := clock w;
        clock_reads := S (clock_reads w);
        routes_requests := routes_requests w;
        log := log w |}).

Definition logger (ev : log_event) : M unit :=
  fun w =>
    (Ok tt,
     {| station_cache_file := station_cache_file w;
        clock := clock w;
        clock_reads := clock_reads w;
        routes_requests := routes_requests w;
        log := ev :: log w |}).

Definition _load_cache : M (gmap string travel_entry) :=
  fun w => (Ok (default ∅ (station_cache_file w)), w).

Definition _save_cache (cache : gmap string travel_entry) : M unit :=
  fun w =>
    (Ok tt,
     {| station_cache_file := Some cache;
        clock := clock w;
        clock_reads := clock_reads w;
        routes_requests := routes_requests w;
        log := log w |}).

Definition TRANSIT_MULTIPLIER : Q := 3 # 2.

(** [_is_cache_valid(entry, expiry_days)].  The range limits of
    [datetime] and [timedelta] are not modelled. *)
Definition _is_cache_valid (entry : travel_entry) (expiry_days : Z) : M bool :=
  match cached_at entry with
  | None => ret false
  | Some IsoMalformed => raise ValueError
  | Some (IsoNaive _) => let* now := datetime_now in raise TypeError
  | Some (IsoAware cached_time) =>
      let* now := datetime_now in
      ret (now - cached_time <? expiry_days * day_us)
  end.

Section Estimator.
(** The [math] functions on floats, the environment variable read by
    [get_api_key], and the answer of the Routes API to a request. *)
Variables (sin cos asin sqrt radians : Q -> Q).
Variable (GOOGLE_API_KEY : string).
Variable (routes_api : request -> http_outcome).

Definition _haversine_km (lat1 lng1 lat2 lng2 : Q) : Q :=
  let R := 6371%Q in
  let dlat := radians (lat2 - lat1)%Q in
  let dlng := radians (lng2 - lng1)%Q in
  let a := (sin (dlat / 2) ^ 2 +
            cos (radians lat1) * cos (radians lat2) *
            sin (dlng / 2) ^ 2)%Q in
  (R * 2 * asin (sqrt a))%Q.

Definition get_api_key : M string :=
  if decide (GOOGLE_API_KEY = ""%string) then raise ValueError
  else ret GOOGLE_API_KEY.

Definition requests_post (body : request) : M (list route) :=
  fun w =>
    let w' := {| station_cache_file := station_cache_file w;
                 clock := clock w;
                 clock_reads := clock_reads w;
                 routes_requests := body :: routes_requests w;
                 log := log w |} in
    match routes_api body with
    | HttpFails e => (Raise e, w')
    | HttpOk routes => (Ok routes, w')
    end.

(** The fare schedule of [compute_travel_time], before and after the
    rounding to 10 yen. *)
Definition fare_by_distance (distance_km_road : Q) : Z :=
  if Qle_bool distance_km_road 5 then 180
  else if Qle_bool distance_km_road 15
       then py_round (150 + distance_km_road * 15)%Q
  else if Qle_bool distance_km_road 30
       then py_round (200 + distance_km_road * 12)%Q
  else py_round (250 + distance_km_road * 10)%Q.

Definition round_to_10_yen (fare_estimate : Z) : Z :=
  py_round (inject_Z fare_estimate / 10)%Q * 10.

Definition compute_travel_time (origin_lat origin_lng dest_lat dest_lng : Q)
  : M travel_entry :=
  let distance_km := _haversine_km origin_lat origin_lng dest_lat dest_lng in
  if Qle_bool distance_km (3 # 2) then
    let walk_minutes := py_round (distance_km / (8 # 100))%Q in
    ret {| travel_time_minutes := Some walk_minutes;
           travel_cost_yen := Some 0;
           travel_summary := SummaryWalk walk_minutes;
           cached_at := None |}
  else
    let* key := get_api_key in
    let* routes := requests_post ((origin_lat, origin_lng), (dest_lat, dest_lng)) in
    match routes with
    | [] =>
        let est_minutes := py_round (distance_km * 3)%Q in
        ret {| travel_time_minutes := Some est_minutes;
               travel_cost_yen := None;
               travel_summary := SummaryEstimate est_minutes distance_km;
               cached_at := None |}
    | route :: _ =>
        let drive_seconds := default 0 (duration route) in
        let transit_minutes :=
          py_round (inject_Z drive_seconds / 60 * TRANSIT_MULTIPLIER)%Q in
        let distance_m := default 0 (distanceMeters route) in
        let distance_km_road := (inject_Z distance_m / 1000)%Q in
        let fare_estimate := fare_by_distance distance_km_road in
        let fare_estimate := round_to_10_yen fare_estimate in
        ret {| travel_time_minutes := Some transit_minutes;
               travel_cost_yen := Some fare_estimate;
               travel_summary := SummaryTransit transit_minutes distance_km_road;
               cached_at := None |}
    end.

Definition set_cached_at (result : travel_entry) (now : Z) : travel_entry :=
  {| travel_time_minutes := travel_time_minutes result;
     travel_cost_yen := travel_cost_yen result;
     travel_summary := travel_summary result;
     cached_at := Some (IsoAware now) |}.

(** [get_travel_info], in three parts: the cache check ([Some entry] on
    a hit), the miss path (call, stamp, store, save), and the function
    itself.  The pause [time.sleep(0.2)] after a miss is not modelled. *)
Definition cache_check (cache : gmap string travel_entry) (place_id : string)
    (cache_expiry_days : Z) : M (option travel_entry) :=
  match cache !! place_id with
  | None => ret None
  | Some entry =>
      let* valid := _is_cache_valid entry cache_expiry_days in
      if valid && bool_decide (travel_time_minutes entry <> None)
      then ret (Some entry)
      else ret None
  end.

Definition compute_and_store (cache : gmap string travel_entry)
    (place_id : string) (origin_lat origin_lng dest_lat dest_lng : Q)
  : M travel_entry :=
  run logger (LogRoutesCall place_id) in
  let* result := compute_travel_time origin_lat origin_lng dest_lat dest_lng in
  let* now := datetime_now in
  let result := set_cached_at result now in
  let cache := <[place_id := result]> cache in
  run _save_cache cache in
  ret result.

Definition get_travel_info (place_id : string)
    (origin_lat origin_lng dest_lat dest_lng : Q) (cache_expiry_days : Z)
  : M travel_entry :=
  let* cache := _load_cache in
  let* hit := cache_check cache place_id cache_expiry_days in
  match hit with
  | Some entry => run logger (LogCacheHit place_id) in ret entry
  | None =>
      compute_and_store cache place_id origin_lat origin_lng dest_lat dest_lng
  end.

End Estimator.

End RoutesClient.

(* ===================================================================== *)
(** * backend/site_generator.py                                           *)
(* ===================================================================== *)

Module SiteGenerator.

(** One restaurant of [current.json]; [r_details] stands for the keys
    that [update_history] drops. *)
Record restaurant : Type := {
  r_place_id : string;
  r_name : string;
  r_rating : option Q;
  r_details : string
}.

Record current_data : Type := {
  generated_at : isoformat;
  week_label : string;
  restaurants : list restaurant
}.

(** [update_archive]: the new content of [archive.json] ([None] is a
    missing or undecodable file). *)
Definition update_archive (current : current_data)
    (archive_file : option (list current_data)) : list current_data :=
  let archive := default [] archive_file in
  let archive := current :: archive in
  take 52 archive.

(** [update_history]: the new content of [history.json]. *)
Definition history_entry (current : current_data) : Recommender.week_record :=
  {| Recommender.w_generated_at := Some (generated_at current);
     Recommender.w_week_label := week_label current;
     Recommender.w_restaurants :=
       map (fun r => {| Recommender.place_id := r_place_id r;
                        Recommender.name := r_name r;
                        Recommender.rating := r_rating r |})
           (restaurants current) |}.

Definition update_history (current : current_data)
    (history_file : option (list Recommender.week_record))
  : list Recommender.week_record :=
  let history := default [] history_file in
  history_entry current :: history.

End SiteGenerator.

(* ===================================================================== *)
(** * backend/places_client.py                                            *)
(* ===================================================================== *)

Module PlacesClient.

(** What one call of [search_restaurants] amounts to for its caller: an
    exception (a failed request, a missing API key), or the [places] of
    the answer ([result.get("places", [])]) and its [nextPageToken]. *)
Inductive search_outcome : Type :=
| SearchFails
| SearchOk (places : list Recommender.place) (nextPageToken : option string).

(** The local variables of [search_all_restaurants].  [places] is [None]
    until the first assignment; [calls] counts the requests made. *)
Record search_state : Type := {
  seen_ids : gset string;
  all_places : list Recommender.place;
  places : option (list Recommender.place);
  calls : nat
}.

(** How [search_all_restaurants] ends: with its list, or with the
    [UnboundLocalError] of reading [places] before any assignment. *)
Inductive search_result : Type :=
| Returns (all_places : list Recommender.place)
| RaisesUnboundLocalError.

(** The loop [for place in places]. *)
Fixpoint add_places (found : list Recommender.place)
    (seen_ids : gset string) (all_places : list Recommender.place)
  : gset string * list Recommender.place :=
  match found with
  | [] => (seen_ids, all_places)
  | place :: rest =>
      let place_id := Recommender.get_id place in
      if bool_decide (place_id ≠ ""%string)
         && bool_decide (place_id ∉ seen_ids)
      then add_places rest ({[ place_id ]} ∪ seen_ids) (all_places ++ [place])
      else add_places rest seen_ids all_places
  end.

Section Search.
(** [search_restaurants n query page_token]: the answer to the request
    for [query] and [page_token] when [n] requests were made before. *)
Variable (search_restaurants : nat → string → option string → search_outcome).

(** The loop [for page in range(max_pages_per_query)]. *)
Fixpoint page_loop (pages : nat) (query : string) (page_token : option string)
    (st : search_state) : search_state :=
  match pages with
  | O => st
  | S pages' =>
      match search_restaurants (calls st) query page_token with
      | SearchFails =>
          {| seen_ids := seen_ids st; all_places := all_places st;
             places := places st; calls := S (calls st) |}
      | SearchOk found next =>
          let (seen, all) := add_places found (seen_ids st) (all_places st) in
          let st' := {| seen_ids := seen; all_places := all;
                        places := Some found; calls := S (calls st) |} in
          match next with
          | None => st'
          | Some token =>
              if decide (token = ""%string) then st'
              else page_loop pages' query (Some token) st'
          end
      end
  end.

(** The loop [for query in queries]; after the pages of a query the log
    line reads [len(places)]. *)
Fixpoint query_loop (max_pages : nat) (queries : list string)
    (st : search_state) : search_result :=
  match queries with
  | [] => Returns (all_places st)
  | query :: rest =>
      let st' := page_loop max_pages query None st in
      match places st' with
      | None => RaisesUnboundLocalError
      | Some _ => query_loop max_pages rest st'
      end
  end.

Definition search_all_restaurants (queries : list string)
    (max_pages_per_query : Z) : search_result :=
  query_loop (Z.to_nat max_pages_per_query) queries
    {| seen_ids := ∅; all_places := []; places := None; calls := 0 |}.

End Search.

End PlacesClient.

(* ===================================================================== *)
(** * backend/sheets_client.py                                            *)
(* ===================================================================== *)

Module SheetsClient.

(** A record of the worksheet: the [visited] cell as [str] shows it
    ([None] without such a column) and the [place_id] cell likewise. *)
Record sheet_row : Type := {
  row_visited : option string;
  row_place_id : option string
}.

(** What reading the worksheet amounts to: any exception on the way
    (authentication, network, missing sheet), or its records. *)
Inductive sheet_outcome : Type :=
| SheetFails
| SheetRecords (records : list sheet_row).

Section Sheets.
(** [str.upper]. *)
Variable (upper : string → string).

Definition marked_visited (row : sheet_row) : bool :=
  bool_decide (upper (default ""%string (row_visited row))
               ∈ ["TRUE"; "YES"; "1"; "○"]%string).

(** The loop of [get_visited_from_sheet]; [None] is the [KeyError] of
    [row["place_id"]]. *)
Fixpoint visited_rows (records : list sheet_row) (visited_ids : gset string)
  : option (gset string) :=
  match records with
  | [] => Some visited_ids
  | row :: rest =>
      if marked_visited row then
        match row_place_id row with
        | None => None
        | Some id => visited_rows rest (visited_ids ∪ {[ id ]})
        end
      else visited_rows rest visited_ids
  end.

Definition get_visited_from_sheet (sheet : sheet_outcome) : gset string :=
  match sheet with
  | SheetFails => ∅
  | SheetRecords records => default ∅ (visited_rows records ∅)
  end.



End Sheets.

End SheetsClient.

(* ===================================================================== *)
(** * backend/run_weekly.py                                               *)
(* ===================================================================== *)

Module RunWeekly.

(** A review of the place details.  A text is a list of code points;
    [TextDict] is the usual [{"text": ...}] object, [TextOther] any other
    value, as [str] shows it. *)
Inductive review_text : Type :=
| TextDict (text : option (list N))
| TextOther (shown : list N).

Record review : Type := {
  rv_rating : option Q;
  rv_text : option review_text
}.

Definition review_text_of (rv : review) : list N :=
  match rv_text rv with
  | None => []
  | Some (TextDict text) => default [] text
  | Some (TextOther shown) => shown
  end.

(** The loop [for review in reviews[:5]]. *)
Fixpoint best_review_loop (reviews : list review)
    (best_review : option (list N)) (best_rating : Q) : option (list N) :=
  match reviews with
  | [] => best_review
  | rv :: rest =>
      let rating := default 0%Q (rv_rating rv) in
      if Recommender.Qlt_bool best_rating rating
      then best_review_loop rest (Some (review_text_of rv)) rating
      else best_review_loop rest best_review best_rating
  end.

(** The three code points of ["..."]. *)
Definition ellipsis : list N := [46; 46; 46]%N.

Definition _extract_menu_from_reviews (reviews : list review)
  : option (list N) :=
  match reviews with
  | [] => None
  | _ :: _ =>
      match best_review_loop (take 5 reviews) None 0%Q with
      | None => None
      | Some best_review =>
          if (100 <? length best_review)%nat
          then Some (take 100 best_review ++ ellipsis)
          else Some best_review
      end
  end.

(** A search result with the coordinates of its [location]. *)
Record candidate : Type := {
  c_place : Recommender.place;
  c_latitude : option Q;
  c_longitude : option Q
}.

Definition truthy_float (x : option Q) : bool :=
  match x with
  | None => false
  | Some q => negb (Qeq_bool q 0)
  end.

Section TravelData.
Variables (sin cos asin sqrt radians : Q → Q).
Variable (GOOGLE_API_KEY : string).
Variable (routes_api : RoutesClient.request → RoutesClient.http_outcome).
Variables (visited_ids recent_ids : gset string).
Variables (origin_lat origin_lng : Q).
Variable (cache_expiry_days : Z).

(** Step 4 of [main]: the loop that fills [travel_data]; an exception of
    [get_travel_info] is logged and the candidate passed over. *)
Fixpoint travel_data_loop (candidates : list candidate)
    (travel_data : gmap string travel_entry)
  : RoutesClient.M (gmap string travel_entry) :=
  match candidates with
  | [] => RoutesClient.ret travel_data
  | place :: rest =>
      let place_id := Recommender.get_id (c_place place) in
      if negb (bool_decide (place_id ≠ ""%string)
               && truthy_float (c_latitude place)
               && truthy_float (c_longitude place))
      then travel_data_loop rest travel_data
      else if bool_decide (place_id ∈ visited_ids)
              || bool_decide (place_id ∈ recent_ids)
      then travel_data_loop rest travel_data
      else
        fun w =>
          match
            RoutesClient.get_travel_info sin cos asin sqrt radians
              GOOGLE_API_KEY routes_api place_id origin_lat origin_lng
              (default 0%Q (c_latitude place))
              (default 0%Q (c_longitude place))
              cache_expiry_days w
          with
          | (Ok info, w') =>
              travel_data_loop rest (<[place_id := info]> travel_data) w'
          | (Raise _, w') => travel_data_loop rest travel_data w'
          end
  end.

End TravelData.

End RunWeekly.

(* ===================================================================== *)
(** * backend/site_generator.py, continued                                *)
(* ===================================================================== *)

(** [generate_current_json]: the data it returns, which is also what it
    writes to [current.json]; [now] is the reading of [datetime.now(JST)]. *)
Definition generate_current_json (now : Z)
    (restaurants : list SiteGenerator.restaurant) (week_label : string)
  : SiteGenerator.current_data :=
  {| SiteGenerator.generated_at := IsoAware now;
     SiteGenerator.week_label := week_label;
     SiteGenerator.restaurants := restaurants |}.

(* ===================================================================== *)
(** * Specification-side definitions                                      *)
(* ===================================================================== *)

(** The retention rule of the candidate filter, in the specification's
    words: the id is in neither set, the review count reaches the
    minimum, and the travel time is unknown or within the maximum. *)
Definition travel_within (max_travel_minutes : Z)
    (travel_info : gmap string travel_entry) (id : string) : Prop :=
  match travel_info !! id with
  | None => True
  | Some entry =>
      match travel_time_minutes entry with
      | None => True
      | Some minutes => minutes <= max_travel_minutes
      end
  end.

Definition spec_retained (visited_ids recent_ids : gset string)
    (min_reviews max_travel_minutes : Z)
    (travel_info : gmap string travel_entry) (p : Recommender.place) : Prop :=
  (Recommender.get_id p ∉ visited_ids)
  ∧ (Recommender.get_id p ∉ recent_ids)
  ∧ min_reviews <= Recommender.get_userRatingCount p
  ∧ travel_within max_travel_minutes travel_info (Recommender.get_id p).

#[global] Instance travel_within_dec max_travel_minutes travel_info id :
  Decision (travel_within max_travel_minutes travel_info id).
Proof.
  unfold travel_within.
  destruct (travel_info !! id) as [entry|]; [|apply _].
  destruct (travel_time_minutes entry); apply _.
Defined.

#[global] Instance spec_retained_dec visited_ids recent_ids min_reviews
    max_travel_minutes travel_info p :
  Decision (spec_retained visited_ids recent_ids min_reviews
              max_travel_minutes travel_info p).
Proof. unfold spec_retained. apply _. Defined.

(** A stored week is well formed when its timestamp is an instant; it
    counts for the window when that instant is not before the cutoff. *)
Definition timestamped (week : Recommender.week_record) : Prop :=
  ∃ t, Recommender.w_generated_at week = Some (IsoAware t).

Definition in_window (cutoff : Z) (week : Recommender.week_record) : Prop :=
  ∃ t, Recommender.w_generated_at week = Some (IsoAware t) ∧ cutoff <= t.

(** The number of strictly positive weights, and the number of
    candidates whose rating (4.0 when absent) is not zero. *)
Fixpoint count_positive (ws : list Q) : nat :=
  match ws with
  | [] => 0
  | w :: ws' =>
      ((if Recommender.Qlt_bool 0 w then 1 else 0) + count_positive ws')%nat
  end.

Fixpoint nonzero_rated (candidates : list Recommender.place) : nat :=
  match candidates with
  | [] => 0
  | c :: candidates' =>
      ((if Qeq_bool (Recommender.get_rating c) 0 then 0 else 1)
       + nonzero_rated candidates')%nat
  end.

(** The fare schedule in the specification's words: yen as a function
    of the road distance in km, before any rounding. *)
Definition spec_fare_schedule (road_km : Q) : Q :=
  if Qle_bool road_km 5 then 180%Q
  else if Qle_bool road_km 15 then (150 + 15 * road_km)%Q
  else if Qle_bool road_km 30 then (200 + 12 * road_km)%Q
  else (250 + 10 * road_km)%Q.

(** [c] is [s] rounded to the nearest 10: a multiple of 10 no further
    than 5 from [s]. *)
Definition nearest_10 (s : Q) (c : Z) : Prop :=
  c mod 10 = 0 ∧ (s - 5 <= inject_Z c <= s + 5)%Q.

(** Validity of a cache entry in the specification's words. *)
Definition spec_valid (now : Z) (entry : travel_entry) (expiry_days : Z)
  : Prop :=
  (∃ cached_time, cached_at entry = Some (IsoAware cached_time)
                  ∧ now - cached_time < expiry_days * day_us)
  ∧ travel_time_minutes entry ≠ None.

(** An outcome of [get_travel_info] that is the cached entry, logged as
    a hit, with the cache file and the request list untouched. *)
Definition served_from_cache (place_id : string) (entry : travel_entry)
    (w : RoutesClient.world)
    (outcome : result travel_entry * RoutesClient.world) : Prop :=
  outcome.1 = Ok entry
  ∧ RoutesClient.log outcome.2
    = RoutesClient.LogCacheHit place_id :: RoutesClient.log w
  ∧ RoutesClient.station_cache_file outcome.2
    = RoutesClient.station_cache_file w
  ∧ RoutesClient.routes_requests outcome.2 = RoutesClient.routes_requests w.

(** The world after the line that [get_travel_info] logs on a miss. *)
Definition logged_call (place_id : string) (w : RoutesClient.world)
  : RoutesClient.world :=
  (RoutesClient.logger (RoutesClient.LogRoutesCall place_id) w).2.

(** Concrete surroundings for the examples: a clock that stands at
    [now], a given cache file, nothing logged or requested yet; and
    constant stand-ins for the [math] functions, which make the
    straight-line distance [6371 * 2 * v] km for [asin] constantly [v]. *)
Definition world_at (now : Z) (cache : option (gmap string travel_entry))
  : RoutesClient.world :=
  {| RoutesClient.station_cache_file := cache;
     RoutesClient.clock := λ _, now;
     RoutesClient.clock_reads := 0;
     RoutesClient.routes_requests := [];
     RoutesClient.log := [] |}.

Definition const_fn (v : Q) : Q → Q := λ _, v.

(** Entries and routes used in the examples. *)
Definition entry_stamped (minutes : option Z) (stamp : Z) : travel_entry :=
  {| travel_time_minutes := minutes;
     travel_cost_yen := Some 0;
     travel_summary := SummaryWalk 10;
     cached_at := Some (IsoAware stamp) |}.

Definition route_of (seconds meters : Z) : RoutesClient.route :=
  {| RoutesClient.duration := Some seconds;
     RoutesClient.distanceMeters := Some meters |}.

Definition place_rated (id : string) (reviews : Z) (rating : Q)
  : Recommender.place :=
  {| Recommender.p_id := Some id;
     Recommender.p_userRatingCount := Some reviews;
     Recommender.p_rating := Some rating;
     Recommender.p_extra := "" |}.

(** The exception a stored week without a usable timestamp causes. *)
Definition timestamp_error (week : Recommender.week_record) : exn :=
  match Recommender.w_generated_at week with
  | None => KeyError
  | Some IsoMalformed => ValueError
  | _ => TypeError
  end.

(** A place was in some answer of the search; and what the loops of
    [search_all_restaurants] keep true of the collected places: their
    ids are pairwise distinct, non-empty and recorded as seen, and each
    place was in an answer. *)
Definition answered_by
    (search_restaurants : nat → string → option string
                          → PlacesClient.search_outcome)
    (p : Recommender.place) : Prop :=
  ∃ n query page_token found next,
    search_restaurants n query page_token = PlacesClient.SearchOk found next
    ∧ p ∈ found.

Definition collected_from
    (search_restaurants : nat → string → option string
                          → PlacesClient.search_outcome)
    (st : PlacesClient.search_state) : Prop :=
  NoDup (Recommender.get_id <$> PlacesClient.all_places st)
  ∧ (∀ p, p ∈ PlacesClient.all_places st →
       Recommender.get_id p ≠ ""%string
       ∧ Recommender.get_id p ∈ PlacesClient.seen_ids st
       ∧ answered_by search_restaurants p).

(** More surroundings for the examples: a walking entry, the world after
    one request, and a place with an id only. *)
Definition walk_entry (minutes : Z) (stamp : option isoformat) : travel_entry :=
  {| travel_time_minutes := Some minutes;
     travel_cost_yen := Some 0;
     travel_summary := SummaryWalk minutes;
     cached_at := stamp |}.


(** A cache as [get_travel_info] writes it: every entry has a time and
    an aware stamp. *)
Definition well_stamped (cache : gmap string travel_entry) : Prop :=
  ∀ id entry, cache !! id = Some entry →
    is_Some (travel_time_minutes entry)
    ∧ ∃ t, cached_at entry = Some (IsoAware t).

(* ===================================================================== *)
(** * Properties of backend/recommender.py                                *)
(* ===================================================================== *)

Section FilterProofs.
Import Recommender.
Variables (visited_ids recent_ids : gset string).
Variables (min_reviews max_travel_minutes : Z).
Variable (travel_info : gmap string travel_entry).

Local Abbreviation keep :=
  (spec_retained visited_ids recent_ids min_reviews max_travel_minutes
     travel_info).

(** The loop appends to [filtered] exactly the places of the input that
    the rule retains, in input order. *)
Lemma filter_loop_filter (places filtered : list place) :
  filter_loop visited_ids recent_ids min_reviews max_travel_minutes
    travel_info places filtered
  = filtered ++ filter keep places.
Proof.
  revert filtered.
  induction places as [|p rest IH]; intros filtered; simpl.
  - by rewrite app_nil_r.
  - unfold filter at 1; simpl. fold (filter keep rest).
    destruct (decide (keep p)) as [Hk|Hk];
      unfold spec_retained, travel_within in Hk.
    + destruct Hk as (Hv & Hr & Hm & Ht).
      rewrite decide_False by done. rewrite decide_False by done.
      destruct (Z.ltb_spec (get_userRatingCount p) min_reviews); [lia|].
      destruct (travel_info !! get_id p) as [entry|].
      * destruct (travel_time_minutes entry) as [mins|].
        -- destruct (Z.ltb_spec max_travel_minutes mins); [lia|].
           rewrite IH. by rewrite <- app_assoc.
        -- rewrite IH. by rewrite <- app_assoc.
      * rewrite IH. by rewrite <- app_assoc.
    + destruct (decide (get_id p ∈ visited_ids)); [apply IH|].
      destruct (decide (get_id p ∈ recent_ids)); [apply IH|].
      destruct (Z.ltb_spec (get_userRatingCount p) min_reviews); [apply IH|].
      destruct (travel_info !! get_id p) as [entry|] eqn:Hti.
      * destruct (travel_time_minutes entry) as [mins|] eqn:Hmins.
        -- destruct (Z.ltb_spec max_travel_minutes mins); [apply IH|].
           exfalso. apply Hk. tauto.
        -- exfalso. apply Hk. tauto.
      * exfalso. apply Hk. tauto.
Qed.

End FilterProofs.

(** The travel clause, spelled out as the three alternatives. *)
Lemma travel_within_cases (max_travel_minutes : Z)
    (travel_info : gmap string travel_entry) (id : string) :
  travel_within max_travel_minutes travel_info id
  ↔ travel_info !! id = None
    ∨ (∃ entry, travel_info !! id = Some entry
                ∧ travel_time_minutes entry = None)
    ∨ (∃ entry minutes, travel_info !! id = Some entry
                        ∧ travel_time_minutes entry = Some minutes
                        ∧ minutes <= max_travel_minutes).
Proof.
  unfold travel_within.
  destruct (travel_info !! id) as [entry|]; [|by split; [left|]].
  destruct (travel_time_minutes entry) as [minutes|] eqn:Hm.
  - split.
    + intros Hle. right. right. by exists entry, minutes.
    + intros [H|[(e & [= <-] & He)|(e & m & [= <-] & He & Hle)]];
        [done|congruence|]. rewrite Hm in He. by injection He as ->.
  - split; [|done]. intros _. right. left. by exists entry.
Qed.

(** C1. [filter_candidates] keeps exactly the candidates that satisfy
    the retention rule (id in neither [visited_ids] nor [recent_ids],
    review count at least [min_reviews], travel time absent, null or at
    most [max_travel_minutes]), with multiplicity and in input order; a
    candidate whose id is visited or recent is never in the output,
    whatever the other parameters are. *)
Theorem filter_candidates_retains
    (places : list Recommender.place) (visited_ids recent_ids : gset string)
    (min_reviews max_travel_minutes : Z)
    (travel_info : option (gmap string travel_entry)) :
  let keep := spec_retained visited_ids recent_ids min_reviews
                max_travel_minutes (default ∅ travel_info) in
  let out := Recommender.filter_candidates places visited_ids recent_ids
               min_reviews max_travel_minutes travel_info in
  out = filter keep places
  ∧ (∀ p, p ∈ out
       ↔ p ∈ places
         ∧ (Recommender.get_id p ∉ visited_ids)
         ∧ (Recommender.get_id p ∉ recent_ids)
         ∧ min_reviews <= Recommender.get_userRatingCount p
         ∧ (default ∅ travel_info !! Recommender.get_id p = None
            ∨ (∃ entry,
                 default ∅ travel_info !! Recommender.get_id p = Some entry
                 ∧ travel_time_minutes entry = None)
            ∨ (∃ entry minutes,
                 default ∅ travel_info !! Recommender.get_id p = Some entry
                 ∧ travel_time_minutes entry = Some minutes
                 ∧ minutes <= max_travel_minutes)))
  ∧ (∀ p, Recommender.get_id p ∈ visited_ids ∪ recent_ids → p ∉ out)
  ∧ sublist out places.
Proof.
  intros keep out.
  assert (Hout : out = filter keep places).
  { unfold out, Recommender.filter_candidates.
    by rewrite filter_loop_filter. }
  split; [exact Hout|]. rewrite Hout. split; [|split].
  - intros p. rewrite list_elem_of_filter. unfold keep, spec_retained.
    rewrite travel_within_cases. tauto.
  - intros p Hin Hp. apply list_elem_of_filter in Hp as [(Hv & Hr & _) _].
    apply elem_of_union in Hin as [Hin|Hin]; contradiction.
  - apply sublist_filter.
Qed.

(** An instance: a visited id is dropped although everything else about
    the candidate qualifies. *)
Lemma filter_candidates_retains_witness :
  place_rated "v" 120 (48 # 10)
  ∉ Recommender.filter_candidates
      [place_rated "v" 120 (48 # 10); place_rated "x" 120 (48 # 10)]
      {[ "v"%string ]} ∅ 50 90 None.
Proof.
  destruct (filter_candidates_retains
    [place_rated "v" 120 (48 # 10); place_rated "x" 120 (48 # 10)]
    {[ "v"%string ]} ∅ 50 90 None) as (_ & _ & Hexcl & _).
  apply Hexcl. apply elem_of_union_l. by apply elem_of_singleton.
Defined.

(** The scenario of the specification: of "x" with 120 reviews and "y"
    with 10, a minimum of 50 keeps "x" only. *)
Example filter_candidates_scenario :
  Recommender.filter_candidates
    [place_rated "x" 120 (48 # 10); place_rated "y" 10 4] ∅ ∅ 50 90 None
  = [place_rated "x" 120 (48 # 10)].
Proof.
  unfold Recommender.filter_candidates. simpl.
  rewrite !decide_False by apply not_elem_of_empty. reflexivity.
Qed.

Section HistoryProofs.
Import Recommender.

Lemma add_place_ids_elem (rs : list history_restaurant)
    (recent_ids : gset string) (id : string) :
  id ∈ add_place_ids rs recent_ids
  ↔ id ∈ recent_ids ∨ ∃ r, r ∈ rs ∧ place_id r = id.
Proof.
  revert recent_ids.
  induction rs as [|r rs IH]; intros recent_ids; simpl.
  - split; [by left|]. intros [H|(r & Hr & _)]; [done|]. by inversion Hr.
  - rewrite IH, elem_of_union, elem_of_singleton. split.
    + intros [[H|H]|(r' & Hr' & Hid)].
      * by left.
      * right. exists r. split; [left|done].
      * right. exists r'. split; [by right|done].
    + intros [H|(r' & Hr' & Hid)]; [by left; left|].
      apply elem_of_cons in Hr' as [->|Hr'].
      * left. by right.
      * right. by exists r'.
Qed.

Lemma load_recent_loop_elem (cutoff : Z) (data : list week_record)
    (recent_ids : gset string) :
  Forall timestamped data →
  ∃ ids, load_recent_loop cutoff data recent_ids = Ok ids
    ∧ ∀ id, id ∈ ids
        ↔ id ∈ recent_ids
          ∨ ∃ week r, week ∈ data ∧ in_window cutoff week
              ∧ r ∈ w_restaurants week ∧ place_id r = id.
Proof.
  intros Hwf. revert recent_ids.
  induction Hwf as [|week rest [t Ht] _ IH]; intros recent_ids; simpl.
  - exists recent_ids. split; [done|]. intros id. split; [by left|].
    intros [H|(week & r & Hw & _)]; [done|]. by inversion Hw.
  - rewrite Ht. destruct (Z.leb_spec cutoff t) as [Hle|Hlt].
    + destruct (IH (add_place_ids (w_restaurants week) recent_ids))
        as (ids & -> & Hids).
      exists ids. split; [done|]. intros id. rewrite Hids, add_place_ids_elem.
      split.
      * intros [[H|(r & Hr & Hid)]|(week' & r & Hw & Hwin & Hr & Hid)].
        -- by left.
        -- right. exists week, r. repeat split; [left| |done|done].
           by exists t.
        -- right. exists week', r. repeat split; [by right|done..].
      * intros [H|(week' & r & Hw & Hwin & Hr & Hid)]; [by left; left|].
        apply elem_of_cons in Hw as [->|Hw].
        -- left. right. by exists r.
        -- right. by exists week', r.
    + destruct (IH recent_ids) as (ids & -> & Hids).
      exists ids. split; [done|]. intros id. rewrite Hids. split.
      * intros [H|(week' & r & Hw & Hwin & Hr & Hid)]; [by left|].
        right. exists week', r. repeat split; [by right|done..].
      * intros [H|(week' & r & Hw & Hwin & Hr & Hid)]; [by left|].
        apply elem_of_cons in Hw as [->|Hw].
        -- destruct Hwin as (t' & Ht' & Hle). rewrite Ht in Ht'.
           injection Ht' as <-. lia.
        -- right. by exists week', r.
Qed.

End HistoryProofs.

(** C8. On a history whose records all carry a timestamp,
    [load_recent_history(weeks)] returns exactly the ids of the records
    whose timestamp is at least now minus [weeks] times 7 days; a missing
    history file gives the empty set; a single record dated 5 weeks ago
    gives the empty set for [weeks = 4]. *)
Theorem load_recent_history_window
    (now weeks : Z) (data : list Recommender.week_record) :
  Forall timestamped data →
  (∃ ids, Recommender.load_recent_history now (Some data) weeks = Ok ids
     ∧ ∀ id, id ∈ ids
         ↔ ∃ week r, week ∈ data
             ∧ in_window (now - weeks * (7 * day_us)) week
             ∧ r ∈ Recommender.w_restaurants week
             ∧ Recommender.place_id r = id)
  ∧ Recommender.load_recent_history now None weeks = Ok ∅
  ∧ ∀ label rs,
      Recommender.load_recent_history now
        (Some [ {| Recommender.w_generated_at :=
                     Some (IsoAware (now - 5 * (7 * day_us)));
                   Recommender.w_week_label := label;
                   Recommender.w_restaurants := rs |} ]) 4
      = Ok ∅.
Proof.
  intros Hwf. split; [|split].
  - unfold Recommender.load_recent_history.
    destruct (load_recent_loop_elem (now - weeks * week_us) data ∅ Hwf)
      as (ids & Hrun & Hids).
    exists ids. split; [done|]. intros id. rewrite Hids.
    split; [|by right]. intros [H|H]; [|exact H].
    by apply not_elem_of_empty in H.
  - done.
  - intros label rs. unfold Recommender.load_recent_history. simpl.
    destruct (Z.leb_spec (now - 4 * week_us) (now - 5 * (7 * day_us)))
      as [Hle|Hlt]; [|done].
    unfold week_us, day_us in Hle. lia.
Qed.

(** An instance: one record stamped inside the window. *)
Lemma load_recent_history_window_witness :
  ∃ ids,
    Recommender.load_recent_history 1000
      (Some [ {| Recommender.w_generated_at := Some (IsoAware 990);
                 Recommender.w_week_label := "w";
                 Recommender.w_restaurants :=
                   [ {| Recommender.place_id := "x";
                        Recommender.name := "n";
                        Recommender.rating := None |} ] |} ]) 4
    = Ok ids.
Proof.
  destruct (load_recent_history_window 1000 4
    [ {| Recommender.w_generated_at := Some (IsoAware 990);
         Recommender.w_week_label := "w";
         Recommender.w_restaurants :=
           [ {| Recommender.place_id := "x";
                Recommender.name := "n";
                Recommender.rating := None |} ] |} ])
    as [(ids & Hids & _) _].
  - repeat constructor. by exists 990.
  - by exists ids.
Defined.

Section SamplerProofs.
Import Recommender.

Lemma Qlt_bool_iff (x y : Q) : Qlt_bool x y = true ↔ (x < y)%Q.
Proof.
  unfold Qlt_bool. rewrite negb_true_iff. split.
  - intros H. apply Qnot_le_lt. intros Hle.
    apply Qle_bool_iff in Hle. congruence.
  - intros H. destruct (Qle_bool y x) eqn:E; [|done].
    apply Qle_bool_iff in E. exfalso. by eapply Qlt_not_le.
Qed.

Lemma accumulate_from_length (acc : Q) (ws : list Q) :
  length (accumulate_from acc ws) = length ws.
Proof.
  revert acc. induction ws as [|w ws IH]; intros acc; simpl; [done|].
  by rewrite IH.
Qed.

Lemma accumulate_length (ws : list Q) : length (accumulate ws) = length ws.
Proof. destruct ws; simpl; [done|]. by rewrite accumulate_from_length. Qed.

(** The last running sum dominates every non-negative summand. *)
Lemma accumulate_from_last (acc : Q) (ws : list Q) (total : Q) :
  Forall (λ w, (0 <= w)%Q) ws → (0 <= acc)%Q →
  last (acc :: accumulate_from acc ws) = Some total →
  (acc <= total)%Q ∧ Forall (λ w, (w <= total)%Q) ws.
Proof.
  intros Hws. revert acc.
  induction Hws as [|w ws Hw _ IH]; intros acc Hacc Hlast.
  - simpl in Hlast. injection Hlast as <-. split; [apply Qle_refl|constructor].
  - change (last ((acc + w)%Q :: accumulate_from (acc + w) ws) = Some total)
      in Hlast.
    assert (Hacc' : (0 <= acc + w)%Q).
    { rewrite <- (Qplus_0_l 0). by apply Qplus_le_compat. }
    destruct (IH _ Hacc' Hlast) as [Hle Hall].
    assert (Hacc_le : (acc <= acc + w)%Q).
    { rewrite <- (Qplus_0_r acc) at 1. apply Qplus_le_compat;
        [apply Qle_refl|done]. }
    assert (Hw_le : (w <= acc + w)%Q).
    { rewrite <- (Qplus_0_l w) at 1. apply Qplus_le_compat;
        [done|apply Qle_refl]. }
    split; [by eapply Qle_trans|].
    constructor; [by eapply Qle_trans|done].
Qed.

Lemma accumulate_last_bound (ws : list Q) (total : Q) :
  Forall (λ w, (0 <= w)%Q) ws →
  last (accumulate ws) = Some total →
  Forall (λ w, (w <= total)%Q) ws.
Proof.
  intros Hws Hlast. destruct ws as [|w ws]; [constructor|].
  inversion Hws as [|? ? Hw Hws']; subst. simpl in Hlast.
  destruct (accumulate_from_last w ws total Hws' Hw Hlast) as [Hle Hall].
  by constructor.
Qed.

(** All weights zero: the last running sum is zero. *)
Lemma accumulate_from_last_zero (acc : Q) (ws : list Q) (total : Q) :
  Forall (λ w, (w == 0)%Q) ws → (acc == 0)%Q →
  last (acc :: accumulate_from acc ws) = Some total →
  (total == 0)%Q.
Proof.
  intros Hws. revert acc.
  induction Hws as [|w ws Hw _ IH]; intros acc Hacc Hlast.
  - simpl in Hlast. by injection Hlast as <-.
  - change (last ((acc + w)%Q :: accumulate_from (acc + w) ws) = Some total)
      in Hlast.
    apply (IH (acc + w)%Q); [|done]. rewrite Hacc, Hw. reflexivity.
Qed.

Lemma count_positive_app (l1 l2 : list Q) :
  count_positive (l1 ++ l2) = (count_positive l1 + count_positive l2)%nat.
Proof. induction l1 as [|w l1 IH]; simpl; [done|]. rewrite IH. lia. Qed.

Lemma count_positive_delete (ws : list Q) (pos : nat) :
  (count_positive ws <= S (count_positive (delete pos ws)))%nat.
Proof.
  destruct (ws !! pos) as [w|] eqn:Hpos.
  - rewrite <- (take_drop_middle ws pos w Hpos) at 1.
    rewrite delete_take_drop, !count_positive_app. simpl.
    destruct (Qlt_bool 0 w); lia.
  - rewrite delete_take_drop.
    apply lookup_ge_None in Hpos.
    rewrite take_ge, drop_ge, app_nil_r by lia. lia.
Qed.

Lemma count_positive_exists (ws : list Q) :
  (1 <= count_positive ws)%nat → ∃ w, w ∈ ws ∧ (0 < w)%Q.
Proof.
  induction ws as [|w ws IH]; simpl; [lia|].
  destruct (Qlt_bool 0 w) eqn:Hw.
  - intros _. exists w. split; [left|]. by apply Qlt_bool_iff.
  - intros H. destruct IH as (w' & Hin & Hpos); [lia|].
    exists w'. split; [by right|done].
Qed.

Lemma midpoint_bounds (lo hi : nat) :
  (lo < hi)%nat → (lo <= (lo + hi) / 2 < hi)%nat.
Proof.
  intros H. split.
  - apply Nat.div_le_lower_bound; lia.
  - apply Nat.Div0.div_lt_upper_bound; lia.
Qed.

(** The binary search stays between its bounds and reads only below [hi]. *)
Lemma bisect_right_bounds (a : list Q) (x : Q) (lo hi : nat) :
  (lo <= hi)%nat → (hi <= length a)%nat →
  ∃ i, bisect_right a x lo hi = Ok i ∧ (lo <= i <= hi)%nat.
Proof.
  funelim (bisect_right a x lo hi); intros Hlo Hhi.
  - exists lo. split; [done|lia].
  - exfalso. pose proof (midpoint_bounds lo hi l) as Hmid.
    apply lookup_ge_None in Heq. lia.
  - pose proof (midpoint_bounds lo hi l) as Hmid.
    destruct H as (i & Hi & Hb); [lia..|].
    exists i. split; [done|lia].
  - pose proof (midpoint_bounds lo hi l) as Hmid.
    destruct H as (i & Hi & Hb); [lia..|].
    exists i. split; [done|lia].
Qed.

(** A draw succeeds, and returns a member of the population, as soon as
    the weights are non-negative with a positive one among them. *)
Lemma choices_ok {A : Type} (u : Q) (population : list A) (weights : list Q) :
  length weights = length population →
  Forall (λ w, (0 <= w)%Q) weights →
  (1 <= count_positive weights)%nat →
  ∃ i x, choices u population weights = Ok x ∧ population !! i = Some x.
Proof.
  intros Hlen Hnonneg Hpos. unfold choices.
  rewrite accumulate_length, Hlen, Nat.eqb_refl. simpl.
  destruct (count_positive_exists weights Hpos) as (w & Hw & Hwpos).
  destruct (last (accumulate weights)) as [total|] eqn:Hlast.
  2:{ apply last_None in Hlast. apply (f_equal length) in Hlast.
      rewrite accumulate_length in Hlast. destruct weights; [|done].
      by inversion Hw. }
  pose proof (accumulate_last_bound weights total Hnonneg Hlast) as Hbound.
  rewrite Forall_forall in Hbound. specialize (Hbound w Hw).
  destruct (Qle_bool total 0) eqn:Htot.
  { apply Qle_bool_iff in Htot. exfalso.
    apply (Qlt_not_le 0 w Hwpos). by eapply Qle_trans. }
  assert (Hne : (0 < length population)%nat).
  { rewrite <- Hlen. destruct weights; [by inversion Hw|simpl; lia]. }
  destruct (bisect_right_bounds (accumulate weights) (u * total)
              0 (length population - 1)) as (i & -> & Hi).
  { lia. }
  { rewrite accumulate_length. lia. }
  destruct (population !! i) as [x|] eqn:Hx.
  - by exists i, x.
  - apply lookup_ge_None in Hx. lia.
Qed.

(** All weights zero: the draw raises [ValueError]. *)
Lemma choices_zero {A : Type} (u : Q) (population : list A) (weights : list Q) :
  length weights = length population →
  weights ≠ [] →
  Forall (λ w, (w == 0)%Q) weights →
  choices u population weights = Raise ValueError.
Proof.
  intros Hlen Hne Hzero. unfold choices.
  rewrite accumulate_length, Hlen, Nat.eqb_refl. simpl.
  destruct weights as [|w ws]; [done|].
  inversion Hzero as [|? ? Hw Hws]; subst.
  destruct (last (accumulate (w :: ws))) as [total|] eqn:Hlast.
  2:{ apply last_None in Hlast. done. }
  simpl in Hlast.
  pose proof (accumulate_from_last_zero w ws total Hws Hw Hlast) as Htot.
  assert (Hle : Qle_bool total 0 = true).
  { apply Qle_bool_iff. rewrite Htot. apply Qle_refl. }
  by rewrite Hle.
Qed.

Lemma index_lookup (x : nat) (l : list nat) :
  x ∈ l → ∃ pos, index x l = Some pos ∧ l !! pos = Some x.
Proof.
  induction l as [|y l IH]; intros Hin; [by inversion Hin|]. simpl.
  destruct (Nat.eqb_spec y x) as [->|Hne].
  - by exists 0%nat.
  - apply elem_of_cons in Hin as [->|Hin]; [done|].
    destruct (IH Hin) as (pos & -> & Hpos). by exists (S pos).
Qed.

Lemma pop_delete {A : Type} (pos : nat) (l : list A) : pop pos l = delete pos l.
Proof. unfold pop. by rewrite delete_take_drop. Qed.

(** The selection loop.  [sel_idxs] are the positions drawn so far. *)
Lemma pick_loop_ok (rnd : nat → Q) (candidates : list place) (n : nat) :
  ∀ (k : nat) (selected : list place) (sel_idxs remaining : list nat)
    (remaining_weights : list Q),
    Forall2 (λ c i, candidates !! i = Some c) selected sel_idxs →
    NoDup (sel_idxs ++ remaining) →
    Forall (λ i, (i < length candidates)%nat) remaining →
    length remaining_weights = length remaining →
    Forall (λ w, (0 <= w)%Q) remaining_weights →
    (Nat.min n (length remaining) <= count_positive remaining_weights)%nat →
    ∃ out idxs,
      pick_loop rnd candidates n k selected remaining remaining_weights = Ok out
      ∧ Forall2 (λ c i, candidates !! i = Some c) out idxs
      ∧ NoDup idxs
      ∧ length out = (length selected + Nat.min n (length remaining))%nat.
Proof.
  induction n as [|n IH];
    intros k selected sel_idxs remaining remaining_weights
           Hsel Hnodup Hrange Hlen Hnonneg Hcount.
  - simpl. exists selected, sel_idxs. repeat split; [done| |lia].
    by apply NoDup_app in Hnodup as (? & _ & _).
  - cbn [pick_loop]. destruct remaining as [|r0 rest] eqn:Hrem.
    { exists selected, sel_idxs. repeat split; [done| |simpl; lia].
      by rewrite app_nil_r in Hnodup. }
    rewrite <- Hrem in *.
    assert (Hrem_len : (1 <= length remaining)%nat) by (subst; simpl; lia).
    destruct (choices_ok (rnd k) remaining remaining_weights)
      as (i & chosen_idx & -> & Hchosen); [done|done|lia|].
    assert (Hin : chosen_idx ∈ remaining) by (by eapply list_elem_of_lookup_2).
    destruct (index_lookup chosen_idx remaining Hin) as (pos & -> & Hpos).
    rewrite Forall_forall in Hrange.
    pose proof (Hrange chosen_idx Hin) as Hlt.
    destruct (candidates !! chosen_idx) as [c|] eqn:Hc.
    2:{ apply lookup_ge_None in Hc. lia. }
    rewrite !pop_delete.
    pose proof (delete_Permutation remaining pos chosen_idx Hpos) as Hperm.
    assert (Hdel_len : length (delete pos remaining)
                       = (length remaining - 1)%nat).
    { apply length_delete. by exists chosen_idx. }
    destruct (IH (S k) (selected ++ [c]) (sel_idxs ++ [chosen_idx])
                (delete pos remaining) (delete pos remaining_weights))
      as (out & idxs & Hrun & Hout & Hnd & Hlen_out).
    + apply Forall2_app; [done|]. by constructor.
    + rewrite <- app_assoc. simpl. by rewrite <- Hperm.
    + apply Forall_delete. by rewrite Forall_forall.
    + rewrite Hdel_len. rewrite length_delete; [lia|].
      apply lookup_lt_is_Some. rewrite Hlen. by eapply lookup_lt_Some.
    + by apply Forall_delete.
    + pose proof (count_positive_delete remaining_weights pos). lia.
    + exists out, idxs. repeat split; [done..|].
      rewrite Hlen_out, length_app, Hdel_len.
      change (length [c]) with 1%nat. lia.
Qed.

Lemma Qsquare_nonneg (r : Q) : (0 <= r ^ 2)%Q.
Proof. destruct r as [a b]. unfold Qle. simpl. nia. Qed.

Lemma Qsquare_positive (r : Q) : Qlt_bool 0 (r ^ 2) = negb (Qeq_bool r 0).
Proof.
  destruct (Qeq_bool r 0) eqn:Heq; cbn [negb].
  - apply Qeq_bool_iff in Heq. unfold Qlt_bool.
    assert (Hle : Qle_bool (r ^ 2) 0 = true); [|by rewrite Hle].
    apply Qle_bool_iff. simpl. rewrite Heq. apply Qle_refl.
  - apply Qlt_bool_iff. apply Qeq_bool_neq in Heq.
    destruct r as [a b]. unfold Qlt, Qeq in *. simpl in *. nia.
Qed.

Lemma weights_nonneg (candidates : list place) :
  Forall (λ w, (0 <= w)%Q) (map (λ c, (get_rating c ^ 2)%Q) candidates).
Proof. apply Forall_map, Forall_forall. intros c _. apply Qsquare_nonneg. Qed.

Lemma weights_count_positive (candidates : list place) :
  count_positive (map (λ c, (get_rating c ^ 2)%Q) candidates)
  = nonzero_rated candidates.
Proof.
  induction candidates as [|c cs IH]; [done|].
  cbn [map count_positive nonzero_rated].
  rewrite IH, Qsquare_positive. by destruct (Qeq_bool (get_rating c) 0).
Qed.

Lemma positions_of_all (candidates : list place) :
  Forall2 (λ c i, candidates !! i = Some c) candidates
    (seq 0 (length candidates)).
Proof.
  apply Forall2_same_length_lookup_2; [by rewrite length_seq|].
  intros i c j Hc Hj. apply lookup_seq in Hj as [-> _]. done.
Qed.

End SamplerProofs.

(** C2, as the code has it.  When the list is no longer than [count], or
    at least [count] candidates have a rating other than zero, the
    sampler returns; the result has [min(len, count)] elements (none for
    a negative [count]), they sit at pairwise distinct positions of the
    input, and the input itself is returned when it is no longer than
    [count]. *)
Theorem weighted_random_pick_cardinality
    (rnd : nat → Q) (candidates : list Recommender.place) (count : Z) :
  Z.of_nat (length candidates) <= count
    ∨ count <= Z.of_nat (nonzero_rated candidates) →
  ∃ out idxs,
    Recommender.weighted_random_pick rnd candidates count = Ok out
    ∧ Z.of_nat (length out)
      = Z.max 0 (Z.min (Z.of_nat (length candidates)) count)
    ∧ Forall2 (λ c i, candidates !! i = Some c) out idxs
    ∧ NoDup idxs
    ∧ (Z.of_nat (length candidates) <= count → out = candidates).
Proof.
  intros Hpre. unfold Recommender.weighted_random_pick.
  destruct (Z.leb_spec (Z.of_nat (length candidates)) count) as [Hle|Hgt].
  - exists candidates, (seq 0 (length candidates)).
    repeat split; [lia|apply positions_of_all|apply NoDup_seq].
  - destruct Hpre as [Hpre|Hpre]; [lia|].
    destruct (pick_loop_ok rnd candidates (Z.to_nat count) 0 [] []
                (seq 0 (length candidates))
                (map (λ c, (Recommender.get_rating c ^ 2)%Q) candidates))
      as (out & idxs & Hrun & Hout & Hnd & Hlen).
    + constructor.
    + apply NoDup_seq.
    + apply Forall_seq. intros; lia.
    + by rewrite length_map, length_seq.
    + apply weights_nonneg.
    + rewrite weights_count_positive, length_seq. lia.
    + exists out, idxs. repeat split; [done| |done|done|lia].
      rewrite Hlen, length_seq. simpl. lia.
Qed.

(** An instance: three candidates rated 5, 1 and 3, two requested. *)
Lemma weighted_random_pick_cardinality_witness :
  ∃ (out : list Recommender.place) (idxs : list nat),
    Recommender.weighted_random_pick (λ _, 1 # 2)%Q
      [ place_rated "a" 120 5;
        place_rated "b" 80 1;
        place_rated "c" 60 3 ]
      2 = Ok out
    ∧ Z.of_nat (length out) = 2
    ∧ NoDup idxs.
Proof.
  destruct (weighted_random_pick_cardinality (λ _, 1 # 2)%Q
    [ place_rated "a" 120 5;
      place_rated "b" 80 1;
      place_rated "c" 60 3 ]
    2) as (out & idxs & Hrun & Hlen & _ & Hnd & _).
  - right. simpl. lia.
  - exists out, idxs. repeat split; [exact Hrun|exact Hlen|exact Hnd].
Defined.

(** The draws of the witness above, carried out: weights 25, 1, 9 and
    [random()] returning 0.5 twice select positions 0 and 2. *)
Example weighted_random_pick_run :
  Recommender.weighted_random_pick (λ _, 1 # 2)%Q
    [ place_rated "a" 120 5;
      place_rated "b" 80 1;
      place_rated "c" 60 3 ]
    2
  = Ok
    [ place_rated "a" 120 5;
      place_rated "c" 60 3 ].
Proof. vm_compute. reflexivity. Qed.

(** C2 as stated fails: with two candidates rated 0 and [count = 1] the
    first draw finds a total weight of zero and raises [ValueError], so
    there is no output of length [min(2, 1)]. *)
Lemma zero_weight_pool_raises :
  ¬ ∃ out,
      Recommender.weighted_random_pick (λ _, 1 # 2)%Q
        [ place_rated "a" 120 0;
          place_rated "b" 80 0 ]
        1 = Ok out
      ∧ length out = Nat.min 2 1.
Proof. intros (out & Hrun & _). vm_compute in Hrun. discriminate. Qed.

(** C6, as the code has it.  There is no uniform fallback: when every
    weight is zero and [0 < count < len(candidates)], the first weighted
    draw raises [ValueError] and nothing is returned. *)
Theorem weighted_random_pick_all_zero
    (rnd : nat → Q) (candidates : list Recommender.place) (count : Z) :
  Forall (λ c, (Recommender.get_rating c == 0)%Q) candidates →
  0 < count < Z.of_nat (length candidates) →
  Recommender.weighted_random_pick rnd candidates count = Raise ValueError.
Proof.
  intros Hzero [Hpos Hlt]. unfold Recommender.weighted_random_pick.
  destruct (Z.leb_spec (Z.of_nat (length candidates)) count); [lia|].
  destruct (Z.to_nat count) as [|n] eqn:Hn; [lia|].
  destruct candidates as [|c cs]; [simpl in Hlt; lia|].
  change (seq 0 (length (c :: cs))) with (0%nat :: seq 1 (length cs)).
  cbn [Recommender.pick_loop].
  rewrite choices_zero; [reflexivity|..].
  - simpl. by rewrite length_map, length_seq.
  - discriminate.
  - apply Forall_map. eapply Forall_impl; [exact Hzero|].
    intros c' Hc'. simpl. rewrite Hc'. reflexivity.
Qed.

(** An instance: three candidates rated 0, two requested. *)
Lemma weighted_random_pick_all_zero_witness :
  Recommender.weighted_random_pick (λ _, 0%Q)
    [ place_rated "a" 120 0;
      place_rated "b" 80 0;
      place_rated "c" 60 0 ]
    2 = Raise ValueError.
Proof.
  apply weighted_random_pick_all_zero.
  - repeat constructor.
  - simpl. lia.
Defined.

(** C6 as stated fails: three candidates rated 0 and [count = 2] give no
    result of length 2. *)
Lemma weighted_random_pick_fallback_fails :
  ¬ ∃ out,
      Recommender.weighted_random_pick (λ _, 0%Q)
        [ place_rated "a" 120 0;
          place_rated "b" 80 0;
          place_rated "c" 60 0 ]
        2 = Ok out
      ∧ length out = 2%nat.
Proof. intros (out & Hrun & _). vm_compute in Hrun. discriminate. Qed.

(* ===================================================================== *)
(** * Properties of backend/site_generator.py                             *)
(* ===================================================================== *)

(** C9. [update_archive] puts the new record at the front of the archive
    and keeps the first 52 records, so the result never has more than 52
    whatever the previous content was; [update_history] puts the week's
    history record (timestamp, label and the id, name and rating of each
    restaurant) at the front of the history and drops nothing. *)
Theorem record_week_archive_and_history
    (current : SiteGenerator.current_data)
    (archive_file : option (list SiteGenerator.current_data))
    (history_file : option (list Recommender.week_record)) :
  let archive := default [] archive_file in
  let history := default [] history_file in
  let archive' := SiteGenerator.update_archive current archive_file in
  let history' := SiteGenerator.update_history current history_file in
  archive' = current :: take 51 archive
  ∧ (length archive' <= 52)%nat
  ∧ length archive' = Nat.min 52 (S (length archive))
  ∧ history' = SiteGenerator.history_entry current :: history
  ∧ length history' = S (length history)
  ∧ Recommender.w_generated_at (SiteGenerator.history_entry current)
      = Some (SiteGenerator.generated_at current)
  ∧ map Recommender.place_id
      (Recommender.w_restaurants (SiteGenerator.history_entry current))
      = map SiteGenerator.r_place_id (SiteGenerator.restaurants current).
Proof.
  intros archive history archive' history'.
  assert (Ha : archive' = current :: take 51 archive) by done.
  split; [done|]. rewrite Ha. simpl. rewrite length_take.
  repeat split; try lia.
  by rewrite map_map.
Qed.

(* ===================================================================== *)
(** * Properties of backend/routes_client.py                              *)
(* ===================================================================== *)

Section RoundingProofs.

Lemma py_round_comp (x y : Q) : (x == y)%Q → py_round x = py_round y.
Proof.
  intros H. unfold py_round. rewrite (Qfloor_comp x y H).
  assert (Hc : (x - inject_Z (Qfloor y) ?= 1 # 2)%Q
               = (y - inject_Z (Qfloor y) ?= 1 # 2)%Q).
  { apply Qcompare_comp; [|reflexivity]. rewrite H. reflexivity. }
  by rewrite Hc.
Qed.

Lemma py_round_floor (x : Q) : Qfloor x <= py_round x <= Qfloor x + 1.
Proof.
  unfold py_round.
  destruct (x - inject_Z (Qfloor x) ?= 1 # 2)%Q; [|lia..].
  destruct (Z.even (Qfloor x)); lia.
Qed.

Lemma py_round_ge (n : Z) (x : Q) : (inject_Z n <= x)%Q → n <= py_round x.
Proof.
  intros H. apply Qfloor_resp_le in H. rewrite Qfloor_Z in H.
  pose proof (py_round_floor x). lia.
Qed.

(** Rounding moves a value by at most one half. *)
Lemma py_round_error (x : Q) :
  (x - (1 # 2) <= inject_Z (py_round x) <= x + (1 # 2))%Q.
Proof.
  pose proof (Qfloor_le x) as Hlo. pose proof (Qlt_floor x) as Hhi.
  unfold py_round. rewrite inject_Z_plus in Hhi.
  destruct (x - inject_Z (Qfloor x) ?= 1 # 2)%Q eqn:Hc;
    [apply Qeq_alt in Hc; destruct (Z.even (Qfloor x))
    |apply Qlt_alt in Hc|apply Qgt_alt in Hc];
    rewrite ?inject_Z_plus; change (inject_Z 1) with 1%Q in *;
    generalize dependent (inject_Z (Qfloor x)); intros f Hlo Hhi Hc; lra.
Qed.

Example py_round_ties :
  py_round (1 # 2) = 0 ∧ py_round (3 # 2) = 2 ∧ py_round (5 # 2) = 2
  ∧ py_round (-1 # 2) = 0 ∧ py_round (-3 # 2) = -2
  ∧ py_round (25 # 2) = 12 ∧ py_round (63 # 2) = 32.
Proof. repeat split; reflexivity. Qed.

End RoundingProofs.

Section EstimatorProofs.
Import RoutesClient.
Variables (sin cos asin sqrt radians : Q → Q).
Variable (GOOGLE_API_KEY : string).
Variable (routes_api : request → http_outcome).

Local Abbreviation distance := (_haversine_km sin cos asin sqrt radians).
Local Abbreviation estimate :=
  (compute_travel_time sin cos asin sqrt radians GOOGLE_API_KEY routes_api).

Lemma Qle_bool_false (x y : Q) : Qle_bool x y = false ↔ (y < x)%Q.
Proof.
  split.
  - intros H. apply Qnot_le_lt. intros Hle. apply Qle_bool_iff in Hle.
    congruence.
  - intros H. destruct (Qle_bool x y) eqn:E; [|done].
    apply Qle_bool_iff in E. exfalso. by eapply Qlt_not_le.
Qed.

(** The code's schedule is the specification's, rounded to a whole yen. *)
Lemma fare_by_distance_schedule (road_km : Q) :
  fare_by_distance road_km = py_round (spec_fare_schedule road_km).
Proof.
  unfold fare_by_distance, spec_fare_schedule.
  destruct (Qle_bool road_km 5); [done|].
  destruct (Qle_bool road_km 15); [apply py_round_comp; ring|].
  destruct (Qle_bool road_km 30); apply py_round_comp; ring.
Qed.

Lemma fare_by_distance_ge (road_km : Q) : 180 <= fare_by_distance road_km.
Proof.
  unfold fare_by_distance.
  destruct (Qle_bool road_km 5) eqn:H5; [lia|].
  apply Qle_bool_false in H5.
  destruct (Qle_bool road_km 15) eqn:H15.
  { apply py_round_ge. change (inject_Z 180) with 180%Q. lra. }
  apply Qle_bool_false in H15.
  destruct (Qle_bool road_km 30) eqn:H30;
    apply py_round_ge; change (inject_Z 180) with 180%Q; lra.
Qed.


Lemma round_to_10_yen_multiple (fare : Z) : round_to_10_yen fare mod 10 = 0.
Proof. unfold round_to_10_yen. apply Z.mod_mul. lia. Qed.

(** Rounding to 10 yen moves the fare by at most 5. *)
Lemma round_to_10_yen_error (fare : Z) :
  (inject_Z fare - 5 <= inject_Z (round_to_10_yen fare) <= inject_Z fare + 5)%Q.
Proof.
  unfold round_to_10_yen. rewrite inject_Z_mult.
  pose proof (py_round_error (inject_Z fare / 10)) as H.
  change (inject_Z 10) with 10%Q.
  set (r := inject_Z (py_round (inject_Z fare / 10))) in *.
  unfold Qdiv in H. change (/ 10)%Q with (1 # 10)%Q in H.
  clearbody r. generalize dependent (inject_Z fare). intros f H. lra.
Qed.

(** Within 1.5 km the estimate is the walking one and the world is
    untouched. *)
Lemma walking_estimate (origin_lat origin_lng dest_lat dest_lng : Q)
    (w : world) :
  let d := distance origin_lat origin_lng dest_lat dest_lng in
  (d <= 3 # 2)%Q →
  estimate origin_lat origin_lng dest_lat dest_lng w
  = (Ok {| travel_time_minutes := Some (py_round (d / (8 # 100)));
           travel_cost_yen := Some 0;
           travel_summary := SummaryWalk (py_round (d / (8 # 100)));
           cached_at := None |}, w).
Proof.
  intros d Hd. unfold compute_travel_time. fold d.
  apply Qle_bool_iff in Hd. by rewrite Hd.
Qed.


(** C3, as the code has it.  With a route in the answer the time is
    [round(d / 60 * 1.5)] and the cost is the schedule rounded to a whole
    yen and then to a multiple of 10, each time to the nearest with ties
    to even; the cost is a multiple of 10 within 5.5 yen of the schedule.
    Driving for 1200 s over 10000 m gives 30 minutes and 300 yen. *)
Theorem transit_estimate_from_route
    (origin_lat origin_lng dest_lat dest_lng : Q) (w : world)
    (route : route) (rest : list RoutesClient.route) :
  (3 # 2 < distance origin_lat origin_lng dest_lat dest_lng)%Q →
  GOOGLE_API_KEY ≠ ""%string →
  routes_api ((origin_lat, origin_lng), (dest_lat, dest_lng))
    = HttpOk (route :: rest) →
  let drive_seconds := default 0 (duration route) in
  let road_km := (inject_Z (default 0%Z (distanceMeters route)) / 1000)%Q in
  ∃ e w' cost,
    estimate origin_lat origin_lng dest_lat dest_lng w = (Ok e, w')
    ∧ travel_time_minutes e
      = Some (py_round (inject_Z drive_seconds / 60 * (3 # 2)))
    ∧ travel_cost_yen e = Some cost
    ∧ cost
      = py_round (inject_Z (py_round (spec_fare_schedule road_km)) / 10) * 10
    ∧ cost mod 10 = 0
    ∧ (spec_fare_schedule road_km - (11 # 2) <= inject_Z cost
       <= spec_fare_schedule road_km + (11 # 2))%Q
    ∧ (duration route = Some 1200 → distanceMeters route = Some 10000 →
       travel_time_minutes e = Some 30 ∧ travel_cost_yen e = Some 300).
Proof.
  intros Hd Hkey Hroutes drive_seconds road_km.
  unfold compute_travel_time.
  apply Qle_bool_false in Hd. rewrite Hd.
  unfold bind, get_api_key, requests_post, ret, raise.
  rewrite decide_False by done. rewrite Hroutes.
  eexists _, _, _. split; [reflexivity|]. cbn [travel_time_minutes travel_cost_yen].
  fold drive_seconds. fold road_km.
  split; [done|]. split; [done|].
  split; [unfold round_to_10_yen; by rewrite fare_by_distance_schedule|].
  split; [apply round_to_10_yen_multiple|].
  split.
  - pose proof (round_to_10_yen_error (fare_by_distance road_km)) as H10.
    pose proof (py_round_error (spec_fare_schedule road_km)) as H1.
    rewrite <- fare_by_distance_schedule in H1.
    generalize dependent (inject_Z (round_to_10_yen (fare_by_distance road_km))).
    generalize dependent (inject_Z (fare_by_distance road_km)).
    generalize (spec_fare_schedule road_km). intros s f H1 c H10. lra.
  - intros Hdur Hm. subst drive_seconds road_km. rewrite Hdur, Hm.
    split; reflexivity.
Qed.

(** C7, as the code has it.  At a straight-line distance of exactly
    1.0 km from (35.00, 139.00) the quotient [1.0 / 0.08] is 12.5, a tie,
    and [round] takes the even neighbour: 12 minutes, cost 0. *)
Theorem walking_one_km (dest_lat dest_lng : Q) (w : world) :
  (distance 35 139 dest_lat dest_lng == 1)%Q →
  ∃ e, estimate 35 139 dest_lat dest_lng w = (Ok e, w)
    ∧ travel_time_minutes e = Some 12
    ∧ travel_cost_yen e = Some 0
    ∧ travel_summary e = SummaryWalk 12.
Proof.
  intros Hd.
  pose proof (walking_estimate 35 139 dest_lat dest_lng w) as Hwalk.
  cbv zeta in Hwalk. rewrite Hwalk by (rewrite Hd; discriminate).
  assert (Hr : py_round (distance 35 139 dest_lat dest_lng / (8 # 100)) = 12).
  { rewrite (py_round_comp _ (25 # 2)); [reflexivity|]. rewrite Hd. reflexivity. }
  eexists. split; [reflexivity|]. simpl. by rewrite Hr.
Qed.

End EstimatorProofs.

Section CacheProofs.
Import RoutesClient.
Variables (sin cos asin sqrt radians : Q → Q).
Variable (GOOGLE_API_KEY : string).
Variable (routes_api : request → http_outcome).

Local Abbreviation estimate :=
  (compute_travel_time sin cos asin sqrt radians GOOGLE_API_KEY routes_api).
Local Abbreviation store :=
  (compute_and_store sin cos asin sqrt radians GOOGLE_API_KEY routes_api).
Local Abbreviation lookup_info :=
  (get_travel_info sin cos asin sqrt radians GOOGLE_API_KEY routes_api).

(** The estimator neither writes the cache file nor logs. *)
Lemma estimate_keeps_file (origin_lat origin_lng dest_lat dest_lng : Q)
    (w : world) :
  station_cache_file (estimate origin_lat origin_lng dest_lat dest_lng w).2
    = station_cache_file w
  ∧ log (estimate origin_lat origin_lng dest_lat dest_lng w).2 = log w.
Proof.
  unfold compute_travel_time, bind, ret, raise, get_api_key,
    requests_post.
  destruct (Qle_bool _ _); [done|].
  destruct (decide _); [done|].
  destruct (routes_api _) as [e|[|route rest]]; done.
Qed.

(** The miss path logs the call first; when it raises, it is the
    estimator that raised, and the cache file is as before. *)
Lemma compute_and_store_log (cache : gmap string travel_entry)
    (place_id : string) (origin_lat origin_lng dest_lat dest_lng : Q)
    (w : world) :
  log (store cache place_id origin_lat origin_lng dest_lat dest_lng w).2
  = LogRoutesCall place_id :: log w.
Proof.
  unfold compute_and_store. unfold bind at 1. unfold logger at 1.
  unfold bind at 1.
  match goal with |- context [estimate _ _ _ _ ?w0] =>
    pose proof (estimate_keeps_file origin_lat origin_lng dest_lat dest_lng w0)
      as [_ Hlog];
    destruct (estimate origin_lat origin_lng dest_lat dest_lng w0)
      as [[result|e] w1]
  end; simpl in Hlog; simpl; by rewrite Hlog.
Qed.

Lemma compute_and_store_raise (cache : gmap string travel_entry)
    (place_id : string) (origin_lat origin_lng dest_lat dest_lng : Q)
    (w : world) (e : exn) (w' : world) :
  store cache place_id origin_lat origin_lng dest_lat dest_lng w
    = (Raise e, w')
  ↔ estimate origin_lat origin_lng dest_lat dest_lng (logged_call place_id w)
    = (Raise e, w').
Proof.
  unfold compute_and_store, logged_call.
  unfold bind at 1. unfold logger at 1. unfold bind at 1.
  simpl.
  destruct (estimate origin_lat origin_lng dest_lat dest_lng _)
    as [[result|e1] w1]; [|done].
  unfold bind, datetime_now, _save_cache, ret. simpl. split; discriminate.
Qed.

(** The outcomes of the cache check, case by case. *)
Lemma cache_check_outcome (cache : gmap string travel_entry)
    (place_id : string) (expiry_days : Z) (w : world) :
  let ticked :=
    {| station_cache_file := station_cache_file w;
       clock := clock w;
       clock_reads := S (clock_reads w);
       routes_requests := routes_requests w;
       log := log w |} in
  cache_check cache place_id expiry_days w
  = match cache !! place_id with
    | None => (Ok None, w)
    | Some entry =>
        match cached_at entry with
        | None => (Ok None, w)
        | Some IsoMalformed => (Raise ValueError, w)
        | Some (IsoNaive _) => (Raise TypeError, ticked)
        | Some (IsoAware cached_time) =>
            if (clock w (clock_reads w) - cached_time <? expiry_days * day_us)
               && bool_decide (travel_time_minutes entry ≠ None)
            then (Ok (Some entry), ticked)
            else (Ok None, ticked)
        end
    end.
Proof.
  unfold cache_check, _is_cache_valid, bind, ret, raise, datetime_now.
  destruct (cache !! place_id) as [entry|]; [|done].
  destruct (cached_at entry) as [[|t|t]|]; simpl; try done.
  by destruct (_ && _).
Qed.

Lemma cache_check_keeps_file (cache : gmap string travel_entry)
    (place_id : string) (expiry_days : Z) (w : world) :
  station_cache_file (cache_check cache place_id expiry_days w).2
    = station_cache_file w
  ∧ log (cache_check cache place_id expiry_days w).2 = log w.
Proof.
  rewrite cache_check_outcome.
  destruct (cache !! place_id) as [entry|]; [|done].
  destruct (cached_at entry) as [[|t|t]|]; simpl; try done.
  by destruct (_ && _).
Qed.

Lemma get_travel_info_unfold (place_id : string)
    (origin_lat origin_lng dest_lat dest_lng : Q) (expiry_days : Z)
    (w : world) :
  lookup_info place_id origin_lat origin_lng dest_lat dest_lng expiry_days w
  = let cache := default ∅ (station_cache_file w) in
    match cache_check cache place_id expiry_days w with
    | (Ok (Some entry), w1) => (Ok entry, (logger (LogCacheHit place_id) w1).2)
    | (Ok None, w1) =>
        store cache place_id origin_lat origin_lng dest_lat dest_lng w1
    | (Raise e, w1) => (Raise e, w1)
    end.
Proof.
  unfold get_travel_info, bind, _load_cache. simpl.
  by destruct (cache_check _ _ _ w) as [[[entry|]|e] w1].
Qed.

(** Whenever [get_travel_info] raises, the cache file is as before. *)
Lemma get_travel_info_raise_keeps_file (place_id : string)
    (origin_lat origin_lng dest_lat dest_lng : Q) (expiry_days : Z)
    (w : world) (e : exn) (w' : world) :
  lookup_info place_id origin_lat origin_lng dest_lat dest_lng expiry_days w
    = (Raise e, w') →
  station_cache_file w' = station_cache_file w.
Proof.
  rewrite get_travel_info_unfold. cbv zeta.
  pose proof (cache_check_keeps_file (default ∅ (station_cache_file w))
                place_id expiry_days w) as [Hfile _].
  destruct (cache_check _ _ _ w) as [[[entry|]|e1] w1]; simpl in Hfile.
  - discriminate.
  - intros Hraise. apply compute_and_store_raise in Hraise.
    pose proof (estimate_keeps_file origin_lat origin_lng dest_lat dest_lng
                  (logged_call place_id w1)) as [Hest _].
    rewrite Hraise in Hest. simpl in Hest. by rewrite Hest.
  - by intros [= <- <-].
Qed.

(** The cached entry is served exactly when it is valid in the
    specification's sense. *)
Lemma served_iff_valid (place_id : string)
    (origin_lat origin_lng dest_lat dest_lng : Q) (expiry_days : Z)
    (w : world) (entry : travel_entry) :
  default ∅ (station_cache_file w) !! place_id = Some entry →
  served_from_cache place_id entry w
    (lookup_info place_id origin_lat origin_lng dest_lat dest_lng
       expiry_days w)
  ↔ spec_valid (clock w (clock_reads w)) entry expiry_days.
Proof.
  intros Hentry. unfold served_from_cache, spec_valid.
  rewrite get_travel_info_unfold. cbv zeta.
  rewrite cache_check_outcome. cbv zeta. rewrite Hentry.
  assert (Hmiss : ∀ w1, log w1 = log w →
    log (store (default ∅ (station_cache_file w)) place_id
           origin_lat origin_lng dest_lat dest_lng w1).2
    ≠ LogCacheHit place_id :: log w).
  { intros w1 Hw1. rewrite compute_and_store_log. discriminate. }
  destruct (cached_at entry) as [[|t|t]|] eqn:Hat.
  - split; [intros (H & _); discriminate|].
    intros [(c & Hc & _) _]. discriminate.
  - split; [intros (H & _); discriminate|].
    intros [(c & Hc & _) _]. discriminate.
  - destruct (Z.ltb_spec (clock w (clock_reads w) - t)
                (expiry_days * day_us)) as [Hlt|Hge].
    + destruct (travel_time_minutes entry) as [m|] eqn:Htime; simpl.
      * split; [|done]. intros _. split; [|done]. by exists t.
      * split; [|by intros [_ Hne]].
        intros (_ & Hlog & _). by apply Hmiss in Hlog.
    + simpl. split.
      * intros (_ & Hlog & _). by apply Hmiss in Hlog.
      * intros [(c & [= <-] & Hlt) _]. lia.
  - split.
    + intros (_ & Hlog & _). by apply Hmiss in Hlog.
    + intros [(c & Hc & _) _]. discriminate.
Qed.

(** C4, as the code has it.  For an entry stored under the id the cached
    entry is served exactly when [cached_at] is an instant with
    [now - cached_at < expiry_days] days and the time is not null; a
    null time is never served, whatever the age; and an entry stamped no
    later than [T] that is served at [T] is no longer served at
    [T + expiry_days + ε] for any [ε > 0]. *)
Theorem cache_validity (place_id : string)
    (origin_lat origin_lng dest_lat dest_lng : Q) (expiry_days : Z)
    (w : world) (entry : travel_entry) :
  default ∅ (station_cache_file w) !! place_id = Some entry →
  let now := clock w (clock_reads w) in
  let served w0 :=
    served_from_cache place_id entry w0
      (lookup_info place_id origin_lat origin_lng dest_lat dest_lng
         expiry_days w0) in
  (served w ↔ spec_valid now entry expiry_days)
  ∧ (travel_time_minutes entry = None → ¬ served w)
  ∧ (∀ cached_time ε w2,
       cached_at entry = Some (IsoAware cached_time) →
       cached_time <= now →
       0 < ε →
       default ∅ (station_cache_file w2) !! place_id = Some entry →
       clock w2 (clock_reads w2) = now + expiry_days * day_us + ε →
       served w → ¬ served w2).
Proof.
  intros Hentry now served. split; [by apply served_iff_valid|]. split.
  - intros Hnull Hserved. apply served_iff_valid in Hserved; [|done].
    by destruct Hserved as [_ Hne].
  - intros cached_time ε w2 Hat Hpast Hε Hentry2 Hclock _ Hserved2.
    apply served_iff_valid in Hserved2; [|done].
    destruct Hserved2 as [(c & Hc & Hlt) _].
    rewrite Hat in Hc. injection Hc as <-. rewrite Hclock in Hlt. lia.
Qed.

(** C10. On a miss, when the estimator raises, [get_travel_info] raises
    the same exception and the cache file is left as it was: no entry is
    written for the id or for any other. *)
Theorem failed_estimate_keeps_cache (place_id : string)
    (origin_lat origin_lng dest_lat dest_lng : Q) (expiry_days : Z)
    (w w1 w2 : world) (e : exn) :
  cache_check (default ∅ (station_cache_file w)) place_id expiry_days w
    = (Ok None, w1) →
  estimate origin_lat origin_lng dest_lat dest_lng (logged_call place_id w1)
    = (Raise e, w2) →
  lookup_info place_id origin_lat origin_lng dest_lat dest_lng expiry_days w
    = (Raise e, w2)
  ∧ station_cache_file w2 = station_cache_file w
  ∧ ∀ id, default ∅ (station_cache_file w2) !! id
          = default ∅ (station_cache_file w) !! id.
Proof.
  intros Hmiss Hraise.
  assert (Hrun : lookup_info place_id origin_lat origin_lng dest_lat dest_lng
                   expiry_days w = (Raise e, w2)).
  { rewrite get_travel_info_unfold. cbv zeta. rewrite Hmiss.
    by apply compute_and_store_raise. }
  split; [done|].
  apply get_travel_info_raise_keeps_file in Hrun.
  split; [done|]. intros id. by rewrite Hrun.
Qed.

End CacheProofs.

(** ** Instances and counterexamples *)


(** An instance: 6.371 km in a straight line, a route of 1200 s over
    10000 m. *)
Lemma transit_estimate_from_route_witness :
  ∃ e w',
    RoutesClient.compute_travel_time
      (const_fn 0) (const_fn 0) (const_fn (1 # 2000)) (const_fn 0) (const_fn 0)
      "key" (λ _, RoutesClient.HttpOk [route_of 1200 10000])
      35 139 (3505 # 100) 139 (world_at 0 None) = (Ok e, w')
    ∧ travel_time_minutes e = Some 30
    ∧ travel_cost_yen e = Some 300.
Proof.
  destruct (transit_estimate_from_route
    (const_fn 0) (const_fn 0) (const_fn (1 # 2000)) (const_fn 0) (const_fn 0)
    "key" (λ _, RoutesClient.HttpOk [route_of 1200 10000])
    35 139 (3505 # 100) 139 (world_at 0 None) (route_of 1200 10000) [])
    as (e & w' & cost & Hrun & _ & _ & _ & _ & _ & Hscenario).
  - vm_compute. reflexivity.
  - discriminate.
  - reflexivity.
  - exists e, w'. split; [exact Hrun|]. by apply Hscenario.
Defined.

(** C3 as stated fails: over 10967 m the schedule gives 314.505 yen, the
    code rounds it to 315 and then 31.5 to the even 32, so the cost is
    320, which is further than 5 from 314.505 (the nearest multiple of
    10 is 310). *)
Lemma transit_fare_not_nearest_10 :
  ∃ e w',
    RoutesClient.compute_travel_time
      (const_fn 0) (const_fn 0) (const_fn (1 # 2000)) (const_fn 0) (const_fn 0)
      "key" (λ _, RoutesClient.HttpOk [route_of 1200 10967])
      35 139 (3505 # 100) 139 (world_at 0 None) = (Ok e, w')
    ∧ travel_cost_yen e = Some 320
    ∧ ¬ nearest_10 (spec_fare_schedule (10967 # 1000)) 320
    ∧ nearest_10 (spec_fare_schedule (10967 # 1000)) 310.
Proof.
  eexists _, _. split; [vm_compute; reflexivity|]. split; [reflexivity|].
  unfold nearest_10. split.
  - intros [_ [_ Hhi]]. vm_compute in Hhi. by apply Hhi.
  - split; [reflexivity|]. split; vm_compute; discriminate.
Qed.

(** An instance: the stand-ins for the [math] functions that make the
    distance 1 km. *)
Lemma walking_one_km_witness :
  ∃ e,
    RoutesClient.compute_travel_time
      (const_fn 0) (const_fn 0) (const_fn (1 # 12742)) (const_fn 0) (const_fn 0)
      "key" (λ _, RoutesClient.HttpOk [])
      35 139 (3501 # 100) 139 (world_at 0 None) = (Ok e, world_at 0 None)
    ∧ travel_time_minutes e = Some 12
    ∧ travel_cost_yen e = Some 0.
Proof.
  destruct (walking_one_km
    (const_fn 0) (const_fn 0) (const_fn (1 # 12742)) (const_fn 0) (const_fn 0)
    "key" (λ _, RoutesClient.HttpOk [])
    (3501 # 100) 139 (world_at 0 None)) as (e & Hrun & Ht & Hc & _).
  - vm_compute. reflexivity.
  - exists e. split; [exact Hrun|]. split; [exact Ht|exact Hc].
Defined.

(** C7 as stated fails: no estimate at exactly 1.0 km has 13 minutes. *)
Lemma one_km_walk_is_not_13_minutes :
  ¬ (∀ (sin cos asin sqrt radians : Q → Q) (key : string)
       (routes_api : RoutesClient.request → RoutesClient.http_outcome)
       (dest_lat dest_lng : Q) (w : RoutesClient.world),
       (RoutesClient._haversine_km sin cos asin sqrt radians
          35 139 dest_lat dest_lng == 1)%Q →
       ∃ e w',
         RoutesClient.compute_travel_time sin cos asin sqrt radians key
           routes_api 35 139 dest_lat dest_lng w = (Ok e, w')
         ∧ travel_time_minutes e = Some 13
         ∧ travel_cost_yen e = Some 0).
Proof.
  intros H.
  destruct (H (const_fn 0) (const_fn 0) (const_fn (1 # 12742)) (const_fn 0)
              (const_fn 0) "key"%string (λ _, RoutesClient.HttpOk [])
              (3501 # 100)%Q 139%Q (world_at 0 None))
    as (e & w' & Hrun & Ht & _).
  - vm_compute. reflexivity.
  - vm_compute in Hrun. injection Hrun as <- _. discriminate Ht.
Qed.

(** An instance: a fresh entry whose time is null is not served. *)
Lemma cache_validity_witness :
  ¬ served_from_cache "p" (entry_stamped None 0)
      (world_at 0 (Some {[ "p"%string := entry_stamped None 0 ]}))
      (RoutesClient.get_travel_info
         (const_fn 0) (const_fn 0) (const_fn 0) (const_fn 0) (const_fn 0)
         "key" (λ _, RoutesClient.HttpOk [])
         "p" 35 139 35 139 90
         (world_at 0 (Some {[ "p"%string := entry_stamped None 0 ]}))).
Proof.
  destruct (cache_validity
    (const_fn 0) (const_fn 0) (const_fn 0) (const_fn 0) (const_fn 0)
    "key" (λ _, RoutesClient.HttpOk [])
    "p" 35 139 35 139 90
    (world_at 0 (Some {[ "p"%string := entry_stamped None 0 ]}))
    (entry_stamped None 0)) as (_ & Hnull & _).
  - apply lookup_singleton_eq.
  - apply Hnull. reflexivity.
Defined.

(** C4 as stated fails: an entry stamped ten days ahead of the clock is
    served at [T = 0] with an expiry of one day, and is still served at
    [T + 1 day + 1 µs]. *)
Lemma future_entry_stays_valid :
  served_from_cache "p" (entry_stamped (Some 10) (10 * day_us))
    (world_at 0 (Some {[ "p"%string := entry_stamped (Some 10) (10 * day_us) ]}))
    (RoutesClient.get_travel_info
       (const_fn 0) (const_fn 0) (const_fn 0) (const_fn 0) (const_fn 0)
       "key" (λ _, RoutesClient.HttpOk [])
       "p" 35 139 35 139 1
       (world_at 0
          (Some {[ "p"%string := entry_stamped (Some 10) (10 * day_us) ]})))
  ∧ served_from_cache "p" (entry_stamped (Some 10) (10 * day_us))
      (world_at (0 + 1 * day_us + 1)
         (Some {[ "p"%string := entry_stamped (Some 10) (10 * day_us) ]}))
      (RoutesClient.get_travel_info
         (const_fn 0) (const_fn 0) (const_fn 0) (const_fn 0) (const_fn 0)
         "key" (λ _, RoutesClient.HttpOk [])
         "p" 35 139 35 139 1
         (world_at (0 + 1 * day_us + 1)
            (Some {[ "p"%string := entry_stamped (Some 10) (10 * day_us) ]}))).
Proof.
  split; (apply served_iff_valid; [apply lookup_singleton_eq|]);
    (split; [|discriminate]); eexists; (split; [reflexivity|]);
    vm_compute; reflexivity.
Qed.

(** An instance: an empty cache file and an oracle answering with an
    HTTP error. *)
Lemma failed_estimate_keeps_cache_witness :
  ∃ w2,
    RoutesClient.get_travel_info
      (const_fn 0) (const_fn 0) (const_fn (1 # 2000)) (const_fn 0) (const_fn 0)
      "key" (λ _, RoutesClient.HttpFails HTTPError)
      "p" 35 139 (3505 # 100) 139 90 (world_at 0 None)
    = (Raise HTTPError, w2)
    ∧ RoutesClient.station_cache_file w2 = None.
Proof.
  eexists.
  destruct (failed_estimate_keeps_cache
    (const_fn 0) (const_fn 0) (const_fn (1 # 2000)) (const_fn 0) (const_fn 0)
    "key" (λ _, RoutesClient.HttpFails HTTPError)
    "p" 35 139 (3505 # 100) 139 90
    (world_at 0 None) (world_at 0 None)
    {| RoutesClient.station_cache_file := None;
       RoutesClient.clock := λ _, 0;
       RoutesClient.clock_reads := 0;
       RoutesClient.routes_requests := [((35, 139), (3505 # 100, 139))]%Q;
       RoutesClient.log := [RoutesClient.LogRoutesCall "p"] |}
    HTTPError) as (Hrun & Hfile & _).
  - reflexivity.
  - reflexivity.
  - split; [exact Hrun|exact Hfile].
Defined.

(* ===================================================================== *)
(** * Cross-checks on binary64 floats                                     *)
(* ===================================================================== *)

(** The values that decide the examples above sit on, or away from, the
    same rounding ties when computed on binary64 floats as Python does:
    [1.0 / 0.08] is exactly 12.5 ([0x1.47ae147ae147bp-4] is the float
    nearest to 0.08); [1200 / 60 * 1.5] is exactly 30;
    [150 + 10967 / 1000 * 15] lies strictly between 314.5 and 315.5, and
    [315 / 10] is exactly 31.5. *)
Example binary64_walking_tie :
  (1 / 0x1.47ae147ae147bp-4 =? 12.5)%float = true.
Proof. vm_compute. reflexivity. Qed.

Example binary64_transit_minutes : (1200 / 60 * 1.5 =? 30)%float = true.
Proof. vm_compute. reflexivity. Qed.

Example binary64_fare_10967 :
  (314.5 <? 150 + 10967 / 1000 * 15)%float = true
  ∧ (150 + 10967 / 1000 * 15 <? 315.5)%float = true
  ∧ (315 / 10 =? 31.5)%float = true.
Proof. repeat split; vm_compute; reflexivity. Qed.

(* ===================================================================== *)
(** * Further properties of backend/routes_client.py                      *)
(* ===================================================================== *)

Section EstimatorFrame.
Import RoutesClient.
Variables (sin cos asin sqrt radians : Q → Q).
Variable (GOOGLE_API_KEY : string).
Variable (routes_api : request → http_outcome).

Local Abbreviation distance := (_haversine_km sin cos asin sqrt radians).
Local Abbreviation estimate :=
  (compute_travel_time sin cos asin sqrt radians GOOGLE_API_KEY routes_api).

(** An estimate always carries a time, and no stamp yet. *)
Lemma estimate_time_known (origin_lat origin_lng dest_lat dest_lng : Q)
    (w w' : world) (r : travel_entry) :
  estimate origin_lat origin_lng dest_lat dest_lng w = (Ok r, w') →
  is_Some (travel_time_minutes r) ∧ cached_at r = None.
Proof.
  unfold compute_travel_time, bind, ret, raise, get_api_key, requests_post.
  destruct (Qle_bool _ _); [by intros [= <- _]|].
  destruct (decide _); [discriminate|].
  destruct (routes_api _) as [e|[|route rest]]; [discriminate|..];
    by intros [= <- _].
Qed.

(** [compute_travel_time] touches nothing but the list of requests, and
    sends at most one: none within walking distance or without an API
    key, exactly one (for this origin and destination) otherwise. *)
Theorem estimator_sends_at_most_one_request
    (origin_lat origin_lng dest_lat dest_lng : Q) (w : world) :
  let d := distance origin_lat origin_lng dest_lat dest_lng in
  let w' := (estimate origin_lat origin_lng dest_lat dest_lng w).2 in
  station_cache_file w' = station_cache_file w
  ∧ clock w' = clock w
  ∧ clock_reads w' = clock_reads w
  ∧ log w' = log w
  ∧ (routes_requests w'
     = if Qle_bool d (3 # 2) then routes_requests w
       else if decide (GOOGLE_API_KEY = ""%string) then routes_requests w
       else ((origin_lat, origin_lng), (dest_lat, dest_lng))
              :: routes_requests w).
Proof.
  intros d w'. subst w'.
  unfold compute_travel_time, bind, ret, raise, get_api_key, requests_post.
  fold d. destruct (Qle_bool d (3 # 2)); [done|].
  destruct (decide _); [done|].
  destruct (routes_api _) as [e|[|route rest]]; done.
Qed.


End EstimatorFrame.

Section CacheRoundTrip.
Import RoutesClient.
Variables (sin cos asin sqrt radians : Q → Q).
Variable (GOOGLE_API_KEY : string).
Variable (routes_api : request → http_outcome).

Local Abbreviation estimate :=
  (compute_travel_time sin cos asin sqrt radians GOOGLE_API_KEY routes_api).
Local Abbreviation store :=
  (compute_and_store sin cos asin sqrt radians GOOGLE_API_KEY routes_api).
Local Abbreviation lookup_info :=
  (get_travel_info sin cos asin sqrt radians GOOGLE_API_KEY routes_api).

(** The miss path after a successful estimate: the result is stamped
    with the next clock reading, put under the id and saved. *)
Lemma compute_and_store_ok (cache : gmap string travel_entry)
    (place_id : string) (origin_lat origin_lng dest_lat dest_lng : Q)
    (w w2 : world) (r : travel_entry) :
  estimate origin_lat origin_lng dest_lat dest_lng (logged_call place_id w)
    = (Ok r, w2) →
  store cache place_id origin_lat origin_lng dest_lat dest_lng w
  = (Ok (set_cached_at r (clock w2 (clock_reads w2))),
     {| station_cache_file :=
          Some (<[place_id := set_cached_at r (clock w2 (clock_reads w2))]>
                  cache);
        clock := clock w2;
        clock_reads := S (clock_reads w2);
        routes_requests := routes_requests w2;
        log := log w2 |}).
Proof.
  intros Hest. unfold compute_and_store, logged_call in *.
  unfold bind at 1. unfold logger at 1. unfold bind at 1.
  simpl in *. rewrite Hest.
  reflexivity.
Qed.

Lemma get_travel_info_miss_ok (place_id : string)
    (origin_lat origin_lng dest_lat dest_lng : Q) (expiry_days : Z)
    (w w1 w2 : world) (r : travel_entry) :
  cache_check (default ∅ (station_cache_file w)) place_id expiry_days w
    = (Ok None, w1) →
  estimate origin_lat origin_lng dest_lat dest_lng (logged_call place_id w1)
    = (Ok r, w2) →
  lookup_info place_id origin_lat origin_lng dest_lat dest_lng expiry_days w
  = (Ok (set_cached_at r (clock w2 (clock_reads w2))),
     {| station_cache_file :=
          Some (<[place_id := set_cached_at r (clock w2 (clock_reads w2))]>
                  (default ∅ (station_cache_file w)));
        clock := clock w2;
        clock_reads := S (clock_reads w2);
        routes_requests := routes_requests w2;
        log := log w2 |}).
Proof.
  intros Hmiss Hest. rewrite get_travel_info_unfold. cbv zeta.
  rewrite Hmiss. by apply compute_and_store_ok.
Qed.

(** On a miss with a successful estimate, [get_travel_info] returns the
    estimate stamped with the current time, and the cache file
    afterwards maps the id to exactly that entry and every other id to
    what it had before; the entry has a time and an aware stamp. *)
Theorem miss_stores_stamped_estimate (place_id : string)
    (origin_lat origin_lng dest_lat dest_lng : Q) (expiry_days : Z)
    (w w1 w2 : world) (r : travel_entry) :
  cache_check (default ∅ (station_cache_file w)) place_id expiry_days w
    = (Ok None, w1) →
  estimate origin_lat origin_lng dest_lat dest_lng (logged_call place_id w1)
    = (Ok r, w2) →
  let stamped := set_cached_at r (clock w2 (clock_reads w2)) in
  let outcome :=
    lookup_info place_id origin_lat origin_lng dest_lat dest_lng
      expiry_days w in
  outcome.1 = Ok stamped
  ∧ default ∅ (station_cache_file outcome.2) !! place_id = Some stamped
  ∧ (∀ id, id ≠ place_id →
       default ∅ (station_cache_file outcome.2) !! id
       = default ∅ (station_cache_file w) !! id)
  ∧ is_Some (travel_time_minutes stamped)
  ∧ cached_at stamped = Some (IsoAware (clock w2 (clock_reads w2)))
  ∧ travel_time_minutes stamped = travel_time_minutes r
  ∧ travel_cost_yen stamped = travel_cost_yen r.
Proof.
  intros Hmiss Hest stamped outcome. subst outcome.
  rewrite (get_travel_info_miss_ok _ _ _ _ _ _ _ _ _ _ Hmiss Hest). simpl.
  split; [done|]. split; [apply lookup_insert_eq|].
  split; [by intros id Hne; apply lookup_insert_ne|].
  split; [|done].
  by apply estimate_time_known in Hest as [Htime _].
Qed.

(** Round trip: once a miss has stored its estimate, any later call for
    the same id that finds the cache file as that call left it and reads
    the clock less than [expiry_days'] days after the stamp is answered
    from the cache, with the stored entry and without a request. *)
Theorem stored_estimate_is_served (place_id : string)
    (origin_lat origin_lng dest_lat dest_lng : Q)
    (expiry_days expiry_days' : Z)
    (w w1 w2 w4 : world) (r : travel_entry) :
  cache_check (default ∅ (station_cache_file w)) place_id expiry_days w
    = (Ok None, w1) →
  estimate origin_lat origin_lng dest_lat dest_lng (logged_call place_id w1)
    = (Ok r, w2) →
  station_cache_file w4
    = station_cache_file
        (lookup_info place_id origin_lat origin_lng dest_lat dest_lng
           expiry_days w).2 →
  clock w4 (clock_reads w4) - clock w2 (clock_reads w2)
    < expiry_days' * day_us →
  served_from_cache place_id (set_cached_at r (clock w2 (clock_reads w2))) w4
    (lookup_info place_id origin_lat origin_lng dest_lat dest_lng
       expiry_days' w4).
Proof.
  intros Hmiss Hest Hfile Hfresh.
  rewrite (get_travel_info_miss_ok _ _ _ _ _ _ _ _ _ _ Hmiss Hest) in Hfile.
  simpl in Hfile.
  apply served_iff_valid.
  - rewrite Hfile. simpl. apply lookup_insert_eq.
  - split.
    + eexists. split; [reflexivity|exact Hfresh].
    + simpl. intros Hnone.
      apply estimate_time_known in Hest as [Htime _].
      rewrite Hnone in Htime. by destruct Htime.
Qed.


(** An entry whose [cached_at] is not ISO 8601, or has no UTC offset,
    is never refreshed: [get_travel_info] raises ([ValueError], resp.
    [TypeError]) before logging or estimating and leaves the cache file
    as it was, so a call that finds the same file raises again. *)
Theorem unparseable_stamp_blocks_refresh (place_id : string)
    (origin_lat origin_lng dest_lat dest_lng : Q) (expiry_days : Z)
    (w : world) (entry : travel_entry) :
  default ∅ (station_cache_file w) !! place_id = Some entry →
  cached_at entry = Some IsoMalformed
    ∨ (∃ t, cached_at entry = Some (IsoNaive t)) →
  let raised :=
    Raise (match cached_at entry with
           | Some IsoMalformed => ValueError
           | _ => TypeError
           end) in
  let outcome :=
    lookup_info place_id origin_lat origin_lng dest_lat dest_lng
      expiry_days w in
  outcome.1 = raised
  ∧ station_cache_file outcome.2 = station_cache_file w
  ∧ routes_requests outcome.2 = routes_requests w
  ∧ log outcome.2 = log w
  ∧ ∀ w', station_cache_file w' = station_cache_file w →
      (lookup_info place_id origin_lat origin_lng dest_lat dest_lng
         expiry_days w').1 = raised.
Proof.
  intros Hentry Hat raised outcome. subst raised outcome.
  assert (Hall : ∀ w', station_cache_file w' = station_cache_file w →
    let outcome' :=
      lookup_info place_id origin_lat origin_lng dest_lat dest_lng
        expiry_days w' in
    outcome'.1 = Raise (match cached_at entry with
                        | Some IsoMalformed => ValueError
                        | _ => TypeError
                        end)
    ∧ station_cache_file outcome'.2 = station_cache_file w'
    ∧ routes_requests outcome'.2 = routes_requests w'
    ∧ log outcome'.2 = log w').
  { intros w' Hfile. cbv zeta. rewrite get_travel_info_unfold. cbv zeta.
    rewrite cache_check_outcome. cbv zeta. rewrite Hfile, Hentry.
    by destruct Hat as [Hat|[t Hat]]; rewrite Hat. }
  destruct (Hall w eq_refl) as (Hres & Hfile & Hreq & Hlog).
  repeat split; try done.
  intros w' Hw'. by destruct (Hall w' Hw') as (Hres' & _).
Qed.

End CacheRoundTrip.

Section FareProofs.
Import RoutesClient.

Lemma py_round_mono (x y : Q) : (x <= y)%Q → py_round x <= py_round y.
Proof.
  intros Hxy.
  pose proof (Qfloor_resp_le x y Hxy) as Hf.
  pose proof (py_round_floor x) as Hx. pose proof (py_round_floor y) as Hy.
  destruct (Z.eq_dec (Qfloor x) (Qfloor y)) as [Heq|Hne]; [|lia].
  unfold py_round. rewrite Heq.
  destruct (x - inject_Z (Qfloor y) ?= 1 # 2)%Q eqn:Hcx;
    destruct (y - inject_Z (Qfloor y) ?= 1 # 2)%Q eqn:Hcy;
    try (destruct (Z.even (Qfloor y)); lia); try lia; exfalso;
    first [apply Qeq_alt in Hcx|apply Qlt_alt in Hcx|apply Qgt_alt in Hcx];
    first [apply Qeq_alt in Hcy|apply Qlt_alt in Hcy|apply Qgt_alt in Hcy];
    generalize dependent (inject_Z (Qfloor y)); intros f Hcx Hcy; lra.
Qed.

Lemma round_to_10_yen_mono (fare fare' : Z) :
  fare <= fare' → round_to_10_yen fare <= round_to_10_yen fare'.
Proof.
  intros H. unfold round_to_10_yen.
  assert (py_round (inject_Z fare / 10) <= py_round (inject_Z fare' / 10));
    [|lia].
  apply py_round_mono. apply Qmult_le_compat_r; [|discriminate].
  by rewrite <- Zle_Qle.
Qed.

Lemma py_round_le (n : Z) (x : Q) : (x <= inject_Z n)%Q → py_round x <= n.
Proof.
  intros H. apply py_round_mono in H.
  assert (Hn : py_round (inject_Z n) = n); [|lia].
  unfold py_round. rewrite Qfloor_Z.
  assert (Hc : (inject_Z n - inject_Z n ?= 1 # 2)%Q = Lt); [|by rewrite Hc].
  apply (proj1 (Qlt_alt _ _)). generalize (inject_Z n). intros q. lra.
Qed.

(** The estimated fare never decreases with the road distance as long
    as both distances are at most 30 km, or both beyond 30 km; across
    30 km it drops: 560 yen for 30000 m, 550 yen for 30001 m. *)
Theorem fare_monotone_except_across_30_km (road_km road_km' : Q) :
  (road_km <= road_km')%Q →
  (road_km' <= 30)%Q ∨ (30 < road_km)%Q →
  round_to_10_yen (fare_by_distance road_km)
    <= round_to_10_yen (fare_by_distance road_km')
  ∧ round_to_10_yen (fare_by_distance (30000 # 1000)) = 560
  ∧ round_to_10_yen (fare_by_distance (30001 # 1000)) = 550.
Proof.
  intros Hle Hside. split; [|split; reflexivity].
  apply round_to_10_yen_mono. unfold fare_by_distance.
  destruct (Qle_bool road_km 5) eqn:H5.
  { fold (fare_by_distance road_km'). apply fare_by_distance_ge. }
  apply Qle_bool_false in H5.
  assert (H5' : Qle_bool road_km' 5 = false) by (apply Qle_bool_false; lra).
  rewrite H5'.
  destruct (Qle_bool road_km 15) eqn:H15.
  { apply Qle_bool_iff in H15.
    destruct (Qle_bool road_km' 15) eqn:H15'; [apply py_round_mono; lra|].
    apply Qle_bool_false in H15'.
    transitivity 375.
    { apply py_round_le. change (inject_Z 375) with 375%Q. lra. }
    destruct (Qle_bool road_km' 30);
      apply py_round_ge; change (inject_Z 375) with 375%Q; lra. }
  apply Qle_bool_false in H15.
  assert (H15' : Qle_bool road_km' 15 = false) by (apply Qle_bool_false; lra).
  rewrite H15'.
  destruct (Qle_bool road_km 30) eqn:H30.
  { apply Qle_bool_iff in H30. destruct Hside as [H30'|Hgt]; [|lra].
    apply Qle_bool_iff in H30'. rewrite H30'. apply py_round_mono. lra. }
  apply Qle_bool_false in H30.
  assert (H30' : Qle_bool road_km' 30 = false) by (apply Qle_bool_false; lra).
  rewrite H30'. apply py_round_mono. lra.
Qed.

Lemma fare_monotone_except_across_30_km_witness :
  round_to_10_yen (fare_by_distance (7 # 1))
    <= round_to_10_yen (fare_by_distance (12 # 1)).
Proof.
  apply (fare_monotone_except_across_30_km (7 # 1) (12 # 1)).
  - discriminate.
  - left. discriminate.
Defined.

End FareProofs.

Section HaversineProofs.
Import RoutesClient.
Variables (sin cos asin sqrt radians : Q → Q).

(** The straight-line distance is symmetric in its two points, for any
    [math] functions that respect equality of rationals and with [sin]
    and [radians] odd. *)
Theorem haversine_symmetric (lat1 lng1 lat2 lng2 : Q) :
  (∀ x y, x == y → radians x == radians y)%Q →
  (∀ x y, x == y → sin x == sin y)%Q →
  (∀ x y, x == y → asin x == asin y)%Q →
  (∀ x y, x == y → sqrt x == sqrt y)%Q →
  (∀ x, radians (- x) == - radians x)%Q →
  (∀ x, sin (- x) == - sin x)%Q →
  (_haversine_km sin cos asin sqrt radians lat1 lng1 lat2 lng2
   == _haversine_km sin cos asin sqrt radians lat2 lng2 lat1 lng1)%Q.
Proof.
  intros Hrad Hsin Hasin Hsqrt Hrad_odd Hsin_odd. unfold _haversine_km.
  assert (Hhalf : ∀ a b,
    (sin (radians (a - b) / 2) ^ 2 == sin (radians (b - a) / 2) ^ 2)%Q).
  { intros a b.
    assert (H1 : (radians (a - b) == - radians (b - a))%Q).
    { rewrite <- Hrad_odd. apply Hrad. ring. }
    assert (H2 : (sin (radians (a - b) / 2)
                  == - sin (radians (b - a) / 2))%Q).
    { rewrite <- Hsin_odd. apply Hsin. rewrite H1. field. }
    simpl. rewrite H2. ring. }
  apply Qmult_comp; [reflexivity|]. apply Hasin, Hsqrt.
  rewrite (Hhalf lat2 lat1), (Hhalf lng2 lng1). ring.
Qed.

End HaversineProofs.

Lemma haversine_symmetric_witness :
  (RoutesClient._haversine_km (λ x, x) (const_fn 1) (λ x, x) (λ x, x)
     (λ x, x) 35 139 (3501 # 100) (13902 # 100)
   == RoutesClient._haversine_km (λ x, x) (const_fn 1) (λ x, x) (λ x, x)
        (λ x, x) (3501 # 100) (13902 # 100) 35 139)%Q.
Proof.
  apply haversine_symmetric; intros; try done; reflexivity.
Defined.

(* ===================================================================== *)
(** * Further properties of backend/recommender.py                        *)
(* ===================================================================== *)

Section SamplerOutcomes.
Import Recommender.

(** A draw from a non-empty pool with as many weights as members either
    returns a member or raises [ValueError]; nothing else. *)
Lemma choices_member_or_value_error {A : Type} (u : Q) (population : list A)
    (weights : list Q) :
  length weights = length population →
  population ≠ [] →
  (∃ i x, choices u population weights = Ok x ∧ population !! i = Some x)
  ∨ choices u population weights = Raise ValueError.
Proof.
  intros Hlen Hne. unfold choices.
  rewrite accumulate_length, Hlen, Nat.eqb_refl. simpl.
  assert (Hpos : (0 < length population)%nat).
  { destruct population; [done|simpl; lia]. }
  destruct (last (accumulate weights)) as [total|] eqn:Hlast.
  2:{ apply last_None in Hlast. apply (f_equal length) in Hlast.
      rewrite accumulate_length in Hlast. simpl in Hlast. lia. }
  destruct (Qle_bool total 0); [by right|]. left.
  destruct (bisect_right_bounds (accumulate weights) (u * total)
              0 (length population - 1)) as (i & -> & Hi).
  { lia. }
  { rewrite accumulate_length. lia. }
  destruct (population !! i) as [x|] eqn:Hx.
  - by exists i, x.
  - apply lookup_ge_None in Hx. lia.
Qed.

Lemma pick_loop_outcomes (rnd : nat → Q) (candidates : list place) (n : nat) :
  ∀ (k : nat) (selected : list place) (sel_idxs remaining : list nat)
    (remaining_weights : list Q),
    Forall2 (λ c i, candidates !! i = Some c) selected sel_idxs →
    NoDup (sel_idxs ++ remaining) →
    Forall (λ i, (i < length candidates)%nat) remaining →
    length remaining_weights = length remaining →
    (∃ out idxs,
       pick_loop rnd candidates n k selected remaining remaining_weights
         = Ok out
       ∧ Forall2 (λ c i, candidates !! i = Some c) out idxs
       ∧ NoDup idxs
       ∧ length out = (length selected + Nat.min n (length remaining))%nat)
    ∨ pick_loop rnd candidates n k selected remaining remaining_weights
      = Raise ValueError.
Proof.
  induction n as [|n IH];
    intros k selected sel_idxs remaining remaining_weights
           Hsel Hnodup Hrange Hlen.
  - left. simpl. exists selected, sel_idxs. repeat split; [done| |lia].
    by apply NoDup_app in Hnodup as (? & _ & _).
  - cbn [pick_loop]. destruct remaining as [|r0 rest] eqn:Hrem.
    { left. exists selected, sel_idxs. repeat split; [done| |simpl; lia].
      by rewrite app_nil_r in Hnodup. }
    rewrite <- Hrem in *.
    assert (Hrem_len : (1 <= length remaining)%nat) by (subst; simpl; lia).
    destruct (choices_member_or_value_error (rnd k) remaining
                remaining_weights Hlen)
      as [(i & chosen_idx & -> & Hchosen)| ->]; [by subst| |by right].
    assert (Hin : chosen_idx ∈ remaining) by (by eapply list_elem_of_lookup_2).
    destruct (index_lookup chosen_idx remaining Hin) as (pos & -> & Hpos).
    rewrite Forall_forall in Hrange.
    pose proof (Hrange chosen_idx Hin) as Hlt.
    destruct (candidates !! chosen_idx) as [c|] eqn:Hc.
    2:{ apply lookup_ge_None in Hc. lia. }
    rewrite !pop_delete.
    pose proof (delete_Permutation remaining pos chosen_idx Hpos) as Hperm.
    assert (Hdel_len : length (delete pos remaining)
                       = (length remaining - 1)%nat).
    { apply length_delete. by exists chosen_idx. }
    destruct (IH (S k) (selected ++ [c]) (sel_idxs ++ [chosen_idx])
                (delete pos remaining) (delete pos remaining_weights))
      as [(out & idxs & Hrun & Hout & Hnd & Hlen_out)|Hraise].
    + apply Forall2_app; [done|]. by constructor.
    + rewrite <- app_assoc. simpl. by rewrite <- Hperm.
    + apply Forall_delete. by rewrite Forall_forall.
    + rewrite Hdel_len. rewrite length_delete; [lia|].
      apply lookup_lt_is_Some. rewrite Hlen. by eapply lookup_lt_Some.
    + left. exists out, idxs. repeat split; [done..|].
      rewrite Hlen_out, length_app, Hdel_len.
      change (length [c]) with 1%nat. lia.
    + by right.
Qed.

Lemma weighted_random_pick_outcomes (rnd : nat → Q)
    (candidates : list place) (count : Z) :
  (∃ out idxs,
     weighted_random_pick rnd candidates count = Ok out
     ∧ Z.of_nat (length out)
       = Z.max 0 (Z.min (Z.of_nat (length candidates)) count)
     ∧ Forall2 (λ c i, candidates !! i = Some c) out idxs
     ∧ NoDup idxs)
  ∨ weighted_random_pick rnd candidates count = Raise ValueError.
Proof.
  unfold weighted_random_pick.
  destruct (Z.leb_spec (Z.of_nat (length candidates)) count) as [Hle|Hgt].
  - left. exists candidates, (seq 0 (length candidates)).
    repeat split; [lia|apply positions_of_all|apply NoDup_seq].
  - destruct (pick_loop_outcomes rnd candidates (Z.to_nat count) 0 [] []
                (seq 0 (length candidates))
                (map (λ c, (get_rating c ^ 2)%Q) candidates))
      as [(out & idxs & Hrun & Hout & Hnd & Hlen)|Hraise].
    + constructor.
    + apply NoDup_seq.
    + apply Forall_seq. intros; lia.
    + by rewrite length_map, length_seq.
    + left. exists out, idxs. repeat split; [done| |done|done].
      rewrite Hlen, length_seq. simpl. lia.
    + by right.
Qed.

End SamplerOutcomes.

(** For any ratings, any count and any random source the sampler either
    returns [min(len, count)] candidates (none for a negative count)
    taken from pairwise distinct positions of the input, or raises
    [ValueError]; it raises nothing else, and it can raise only when
    [count] is below the length of the list and above the number of
    candidates with a non-zero rating. *)
Theorem weighted_random_pick_returns_or_value_error (rnd : nat → Q)
    (candidates : list Recommender.place) (count : Z) :
  (∃ out idxs,
     Recommender.weighted_random_pick rnd candidates count = Ok out
     ∧ Z.of_nat (length out)
       = Z.max 0 (Z.min (Z.of_nat (length candidates)) count)
     ∧ Forall2 (λ c i, candidates !! i = Some c) out idxs
     ∧ NoDup idxs)
  ∨ (Recommender.weighted_random_pick rnd candidates count = Raise ValueError
     ∧ Z.of_nat (nonzero_rated candidates) < count
         < Z.of_nat (length candidates)).
Proof.
  destruct (weighted_random_pick_outcomes rnd candidates count)
    as [Hok|Hraise]; [by left|right].
  split; [done|]. unfold Recommender.weighted_random_pick in Hraise.
  destruct (Z.leb_spec (Z.of_nat (length candidates)) count) as [Hle|Hgt];
    [discriminate|].
  split; [|done].
  destruct (Z.lt_ge_cases (Z.of_nat (nonzero_rated candidates)) count)
    as [Hlt|Hge]; [done|exfalso].
  destruct (pick_loop_ok rnd candidates (Z.to_nat count) 0 [] []
              (seq 0 (length candidates))
              (map (λ c, (Recommender.get_rating c ^ 2)%Q) candidates))
    as (out & idxs & Hrun & _).
  - constructor.
  - apply NoDup_seq.
  - apply Forall_seq. intros; lia.
  - by rewrite length_map, length_seq.
  - apply weights_nonneg.
  - rewrite weights_count_positive, length_seq. lia.
  - congruence.
Qed.

(** Filter then pick: whatever the sampler returns from the filtered
    list is a candidate of the search result that satisfies the
    retention rule, so no visited or recently recommended id is ever
    selected. *)
Theorem picked_candidates_are_retained (rnd : nat → Q)
    (places : list Recommender.place) (visited_ids recent_ids : gset string)
    (min_reviews max_travel_minutes : Z)
    (travel_info : option (gmap string travel_entry))
    (count : Z) (selected : list Recommender.place) :
  Recommender.weighted_random_pick rnd
    (Recommender.filter_candidates places visited_ids recent_ids
       min_reviews max_travel_minutes travel_info) count = Ok selected →
  ∀ p, p ∈ selected →
    p ∈ places
    ∧ spec_retained visited_ids recent_ids min_reviews max_travel_minutes
        (default ∅ travel_info) p
    ∧ Recommender.get_id p ∉ visited_ids ∪ recent_ids.
Proof.
  intros Hrun p Hp.
  destruct (weighted_random_pick_outcomes rnd
              (Recommender.filter_candidates places visited_ids recent_ids
                 min_reviews max_travel_minutes travel_info) count)
    as [(out & idxs & Hout & _ & Hpos & _)|Hraise]; [|congruence].
  rewrite Hrun in Hout. injection Hout as <-.
  apply list_elem_of_lookup in Hp as [j Hj].
  destruct (Forall2_lookup_l _ _ _ _ _ Hpos Hj) as (i & _ & Hi).
  apply list_elem_of_lookup_2 in Hi.
  unfold Recommender.filter_candidates in Hi.
  rewrite filter_loop_filter in Hi. simpl in Hi.
  apply list_elem_of_filter in Hi as [Hkeep Hin].
  split; [done|]. split; [done|].
  destruct Hkeep as (Hv & Hr & _).
  intros [H|H]%elem_of_union; contradiction.
Qed.

Lemma picked_candidates_are_retained_witness :
  Recommender.get_id (place_rated "x" 120 (48 # 10))
  ∉ ({[ "v"%string ]} : gset string) ∪ ∅.
Proof.
  apply (picked_candidates_are_retained (λ _, 1 # 2)%Q
           [place_rated "v" 120 (48 # 10); place_rated "x" 120 (48 # 10)]
           {[ "v"%string ]} ∅ 50 90 None 3
           [place_rated "x" 120 (48 # 10)]); [|left].
  unfold Recommender.weighted_random_pick, Recommender.filter_candidates.
  simpl. rewrite decide_True by by apply elem_of_singleton.
  rewrite decide_False by (rewrite elem_of_singleton; discriminate).
  rewrite decide_False by apply not_elem_of_empty. reflexivity.
Defined.

Section FilterAlgebra.
Import Recommender.

(** Filtering is idempotent, and tightening any parameter (more visited
    or recent ids, a higher review minimum, a lower travel maximum) can
    only remove candidates: the stricter result is a sublist of the
    laxer one. *)
Theorem filter_candidates_idempotent_and_antitone
    (places : list place) (visited_ids recent_ids : gset string)
    (min_reviews max_travel_minutes : Z)
    (travel_info : option (gmap string travel_entry)) :
  filter_candidates
    (filter_candidates places visited_ids recent_ids min_reviews
       max_travel_minutes travel_info)
    visited_ids recent_ids min_reviews max_travel_minutes travel_info
  = filter_candidates places visited_ids recent_ids min_reviews
      max_travel_minutes travel_info
  ∧ ∀ (visited_ids' recent_ids' : gset string)
      (min_reviews' max_travel_minutes' : Z),
      visited_ids ⊆ visited_ids' → recent_ids ⊆ recent_ids' →
      min_reviews <= min_reviews' →
      max_travel_minutes' <= max_travel_minutes →
      sublist
        (filter_candidates places visited_ids' recent_ids' min_reviews'
           max_travel_minutes' travel_info)
        (filter_candidates places visited_ids recent_ids min_reviews
           max_travel_minutes travel_info).
Proof.
  unfold filter_candidates. rewrite !filter_loop_filter. simpl. split.
  - induction places as [|p ps IH]; [done|].
    rewrite filter_cons. case_decide as Hk; [|exact IH].
    rewrite filter_cons, decide_True by done. by rewrite IH.
  - intros visited_ids' recent_ids' min_reviews' max_travel_minutes'
           Hv Hr Hm Ht.
    rewrite !filter_loop_filter. simpl.
    induction places as [|p ps IH]; [done|].
    rewrite !filter_cons.
    case_decide as Hk'; case_decide as Hk.
    + by constructor.
    + exfalso. apply Hk. destruct Hk' as (H1 & H2 & H3 & H4).
      repeat split; [set_solver|set_solver|lia|].
      unfold travel_within in *.
      destruct (default ∅ travel_info !! get_id p) as [entry|]; [|done].
      destruct (travel_time_minutes entry); [lia|done].
    + by constructor.
    + exact IH.
Qed.

End FilterAlgebra.

Section HistoryMore.
Import Recommender.

Lemma load_recent_loop_raises (cutoff : Z) (good : list week_record)
    (bad : week_record) (rest : list week_record) (recent_ids : gset string) :
  Forall timestamped good → ¬ timestamped bad →
  load_recent_loop cutoff (good ++ bad :: rest) recent_ids
  = Raise (timestamp_error bad).
Proof.
  intros Hgood Hbad. revert recent_ids.
  induction Hgood as [|week good [t Ht] _ IH]; intros recent_ids; simpl.
  - unfold timestamp_error.
    destruct (w_generated_at bad) as [[|t|t]|] eqn:Hat; try done.
    exfalso. apply Hbad. by exists t.
  - rewrite Ht. by destruct (cutoff <=? t); rewrite IH.
Qed.

(** One record without a usable timestamp makes the whole call raise,
    wherever the record sits and however old it is: [KeyError] for a
    missing [generated_at], [ValueError] for a malformed one, [TypeError]
    for one without UTC offset.  No id of the other records is
    returned. *)
Theorem load_recent_history_raises_on_bad_record (now weeks : Z)
    (good : list week_record) (bad : week_record) (rest : list week_record) :
  Forall timestamped good → ¬ timestamped bad →
  load_recent_history now (Some (good ++ bad :: rest)) weeks
  = Raise (match w_generated_at bad with
           | None => KeyError
           | Some IsoMalformed => ValueError
           | _ => TypeError
           end).
Proof.
  intros Hgood Hbad. unfold load_recent_history.
  by rewrite load_recent_loop_raises.
Qed.


End HistoryMore.

Lemma load_recent_history_raises_on_bad_record_witness :
  Recommender.load_recent_history 1000
    (Some ([] ++ {| Recommender.w_generated_at := None;
                    Recommender.w_week_label := "w";
                    Recommender.w_restaurants := [] |} :: [])) 4
  = Raise KeyError.
Proof.
  apply (load_recent_history_raises_on_bad_record 1000 4 []
           {| Recommender.w_generated_at := None;
              Recommender.w_week_label := "w";
              Recommender.w_restaurants := [] |} []).
  - constructor.
  - intros [t Ht]. discriminate Ht.
Defined.


(* ===================================================================== *)
(** * Further properties of backend/site_generator.py                     *)
(* ===================================================================== *)

Section WeekRecording.
Import SiteGenerator.

(** Record, then read back: after [update_history] has stored a week
    stamped [t], [load_recent_history] returns every place id of that
    week as long as [t] is not before the cutoff, and then
    [filter_candidates] drops every candidate with one of these ids. *)
Theorem recorded_week_is_recent_and_filtered (current : current_data)
    (history_file : option (list Recommender.week_record))
    (now weeks t : Z) :
  Forall timestamped (default [] history_file) →
  generated_at current = IsoAware t →
  now - weeks * (7 * day_us) <= t →
  ∃ recent_ids,
    Recommender.load_recent_history now
      (Some (update_history current history_file)) weeks = Ok recent_ids
    ∧ (∀ r, r ∈ restaurants current → r_place_id r ∈ recent_ids)
    ∧ ∀ places visited_ids min_reviews max_travel_minutes travel_info p r,
        r ∈ restaurants current →
        Recommender.get_id p = r_place_id r →
        p ∉ Recommender.filter_candidates places visited_ids recent_ids
              min_reviews max_travel_minutes travel_info.
Proof.
  intros Hwf Ht Hcut. unfold Recommender.load_recent_history.
  assert (Hwf' : Forall timestamped (update_history current history_file)).
  { constructor; [|done]. exists t. simpl. by rewrite Ht. }
  destruct (load_recent_loop_elem (now - weeks * week_us)
              (update_history current history_file) ∅ Hwf')
    as (ids & Hrun & Hids).
  exists ids. split; [done|].
  assert (Hin : ∀ r, r ∈ restaurants current → r_place_id r ∈ ids).
  { intros r Hr. apply Hids. right.
    exists (history_entry current),
      {| Recommender.place_id := r_place_id r;
         Recommender.name := r_name r;
         Recommender.rating := r_rating r |}.
    split; [left|]. split; [exists t; simpl; by rewrite Ht|].
    split; [|done]. simpl. apply list_elem_of_In, in_map_iff.
    exists r. split; [done|]. by apply list_elem_of_In. }
  split; [done|].
  intros places visited_ids min_reviews max_travel_minutes travel_info p r
         Hr Hid Hp.
  unfold Recommender.filter_candidates in Hp.
  rewrite filter_loop_filter in Hp. simpl in Hp.
  apply list_elem_of_filter in Hp as [(_ & Hrecent & _) _].
  apply Hrecent. rewrite Hid. by apply Hin.
Qed.

(** Several weeks in a row: recording the weeks [c1, ..., cn] one after
    the other leaves the newest first, followed by the older ones and
    the previous content, cut at 52 records. *)
Theorem update_archive_repeated (currents : list current_data)
    (archive_file : option (list current_data)) :
  currents ≠ [] →
  foldl (λ file current, Some (update_archive current file))
    archive_file currents
  = Some (take 52 (reverse currents ++ default [] archive_file)).
Proof.
  intros Hne.
  assert (Hgen : ∀ cs archive,
    foldl (λ file current, Some (update_archive current file))
      (Some (take 52 archive)) cs
    = Some (take 52 (reverse cs ++ archive))).
  { induction cs as [|c cs IH]; intros archive; [done|].
    cbn [foldl].
    assert (Hstep : update_archive c (Some (take 52 archive))
                    = take 52 (c :: archive)).
    { unfold update_archive. simpl. by rewrite take_take. }
    by rewrite Hstep, IH, reverse_cons, <- app_assoc. }
  destruct currents as [|c cs]; [done|]. cbn [foldl].
  change (update_archive c archive_file)
    with (take 52 (c :: default [] archive_file)).
  by rewrite Hgen, reverse_cons, <- app_assoc.
Qed.

End WeekRecording.

Lemma recorded_week_is_recent_and_filtered_witness :
  ∃ recent_ids,
    Recommender.load_recent_history 1000
      (Some (SiteGenerator.update_history
               {| SiteGenerator.generated_at := IsoAware 990;
                  SiteGenerator.week_label := "w";
                  SiteGenerator.restaurants :=
                    [ {| SiteGenerator.r_place_id := "x";
                         SiteGenerator.r_name := "n";
                         SiteGenerator.r_rating := None;
                         SiteGenerator.r_details := "" |} ] |} None)) 4
    = Ok recent_ids
    ∧ "x"%string ∈ recent_ids.
Proof.
  destruct (recorded_week_is_recent_and_filtered
    {| SiteGenerator.generated_at := IsoAware 990;
       SiteGenerator.week_label := "w";
       SiteGenerator.restaurants :=
         [ {| SiteGenerator.r_place_id := "x";
              SiteGenerator.r_name := "n";
              SiteGenerator.r_rating := None;
              SiteGenerator.r_details := "" |} ] |} None 1000 4 990)
    as (ids & Hrun & Hin & _).
  - constructor.
  - reflexivity.
  - unfold day_us. lia.
  - exists ids. split; [exact Hrun|].
    apply (Hin {| SiteGenerator.r_place_id := "x";
                  SiteGenerator.r_name := "n";
                  SiteGenerator.r_rating := None;
                  SiteGenerator.r_details := "" |}). left.
Defined.

Lemma update_archive_repeated_witness :
  foldl (λ file current, Some (SiteGenerator.update_archive current file))
    None
    [ {| SiteGenerator.generated_at := IsoAware 1;
         SiteGenerator.week_label := "a";
         SiteGenerator.restaurants := [] |};
      {| SiteGenerator.generated_at := IsoAware 2;
         SiteGenerator.week_label := "b";
         SiteGenerator.restaurants := [] |} ]
  = Some
      [ {| SiteGenerator.generated_at := IsoAware 2;
           SiteGenerator.week_label := "b";
           SiteGenerator.restaurants := [] |};
        {| SiteGenerator.generated_at := IsoAware 1;
           SiteGenerator.week_label := "a";
           SiteGenerator.restaurants := [] |} ].
Proof.
  rewrite update_archive_repeated; [reflexivity|discriminate].
Defined.

(* ===================================================================== *)
(** * Properties of backend/places_client.py                              *)
(* ===================================================================== *)

Section SearchProofs.
Import PlacesClient.
Variable (search_restaurants : nat → string → option string → search_outcome).

Local Abbreviation get_id := Recommender.get_id.

Local Abbreviation answered := (answered_by search_restaurants).
Local Abbreviation collected := (collected_from search_restaurants).

Lemma add_places_collected (found : list Recommender.place)
    (seen : gset string) (all : list Recommender.place) :
  NoDup (get_id <$> all) →
  (∀ p, p ∈ all → get_id p ≠ ""%string ∧ get_id p ∈ seen ∧ answered p) →
  (∀ p, p ∈ found → answered p) →
  NoDup (get_id <$> (add_places found seen all).2)
  ∧ (∀ p, p ∈ (add_places found seen all).2 →
       get_id p ≠ ""%string
       ∧ get_id p ∈ (add_places found seen all).1
       ∧ answered p).
Proof.
  revert seen all.
  induction found as [|place rest IH]; intros seen all Hnd Hall Hfound;
    [done|]. simpl.
  destruct (bool_decide (get_id place ≠ ""%string)) eqn:Hne;
    destruct (bool_decide (get_id place ∉ seen)) eqn:Hnew; simpl;
    try (apply IH; [done|done|by intros p Hp; apply Hfound; right]).
  apply bool_decide_eq_true in Hne, Hnew.
  apply IH.
  - rewrite fmap_app. apply NoDup_app. split; [done|]. split.
    + intros id Hid Hid'. simpl in Hid'.
      apply list_elem_of_singleton in Hid'. subst id.
      apply list_elem_of_fmap in Hid as (p & Hp & Hin).
      apply Hnew. rewrite Hp. by apply Hall.
    + simpl. apply NoDup_singleton.
  - intros p Hp. apply elem_of_app in Hp as [Hp|Hp].
    + destruct (Hall p Hp) as (H1 & H2 & H3).
      split; [done|]. split; [by apply elem_of_union_r|done].
    + apply list_elem_of_singleton in Hp. subst p.
      split; [done|]. split; [by apply elem_of_union_l, elem_of_singleton|].
      apply Hfound. left.
  - intros p Hp. apply Hfound. by right.
Qed.

Lemma page_loop_collected (pages : nat) (query : string)
    (page_token : option string) (st : search_state) :
  collected st →
  collected (page_loop search_restaurants pages query page_token st).
Proof.
  revert page_token st.
  induction pages as [|pages IH]; intros page_token st Hst; [done|].
  simpl.
  destruct (search_restaurants (calls st) query page_token)
    as [|found next] eqn:Hcall; [exact Hst|].
  destruct Hst as [Hnd Hall].
  pose proof (add_places_collected found (seen_ids st) (all_places st)
                Hnd Hall) as Hadd.
  destruct (add_places found (seen_ids st) (all_places st)) as [seen all].
  assert (Hst' : collected
    {| seen_ids := seen; all_places := all; places := Some found;
       calls := S (calls st) |}).
  { apply Hadd. intros p Hp.
    by exists (calls st), query, page_token, found, next. }
  destruct next as [token|]; [|exact Hst'].
  destruct (decide (token = ""%string)); [exact Hst'|by apply IH].
Qed.

Lemma page_loop_places_assigned (pages : nat) (query : string)
    (page_token : option string) (st : search_state) :
  is_Some (places st) →
  is_Some (places (page_loop search_restaurants pages query page_token st)).
Proof.
  revert page_token st.
  induction pages as [|pages IH]; intros page_token st Hst; [done|].
  simpl.
  destruct (search_restaurants (calls st) query page_token)
    as [|found next]; [exact Hst|].
  destruct (add_places found (seen_ids st) (all_places st)) as [seen all].
  destruct next as [token|]; [|by eexists].
  destruct (decide (token = ""%string)); [by eexists|].
  apply IH. by eexists.
Qed.

Lemma query_loop_returns (max_pages : nat) (queries : list string)
    (st : search_state) :
  is_Some (places st) →
  ∃ all, query_loop search_restaurants max_pages queries st = Returns all.
Proof.
  revert st. induction queries as [|query rest IH]; intros st Hst; simpl.
  - by eexists.
  - pose proof (page_loop_places_assigned max_pages query None st Hst)
      as Hst'.
    destruct (places (page_loop search_restaurants max_pages query None st))
      eqn:Hp; [|by destruct Hst'].
    apply IH. by rewrite Hp.
Qed.

Lemma query_loop_collected (max_pages : nat) (queries : list string)
    (st : search_state) (all : list Recommender.place) :
  collected st →
  query_loop search_restaurants max_pages queries st = Returns all →
  NoDup (get_id <$> all)
  ∧ ∀ p, p ∈ all → get_id p ≠ ""%string ∧ answered p.
Proof.
  revert st. induction queries as [|query rest IH]; intros st Hst; simpl.
  - intros [= <-]. destruct Hst as [Hnd Hall]. split; [done|].
    intros p Hp. by destruct (Hall p Hp) as (? & _ & ?).
  - pose proof (page_loop_collected max_pages query None st Hst) as Hst'.
    destruct (places (page_loop search_restaurants max_pages query None st));
      [|discriminate].
    by apply IH.
Qed.

(** Whatever the search answers, a list returned by
    [search_all_restaurants] has pairwise distinct, non-empty ids, and
    each of its places was in one of the answers. *)
Theorem search_all_restaurants_unique_ids (queries : list string)
    (max_pages_per_query : Z) (all : list Recommender.place) :
  search_all_restaurants search_restaurants queries max_pages_per_query
    = Returns all →
  NoDup (get_id <$> all)
  ∧ (∀ p, p ∈ all → get_id p ≠ ""%string ∧ answered p)
  ∧ (∀ p q, p ∈ all → q ∈ all → get_id p = get_id q → p = q).
Proof.
  intros Hrun. unfold search_all_restaurants in Hrun.
  apply query_loop_collected in Hrun as [Hnd Hall].
  2:{ split; [constructor|]. intros p Hp. by inversion Hp. }
  split; [done|]. split; [done|].
  intros p q Hp Hq Hid.
  apply list_elem_of_lookup in Hp as [i Hi].
  apply list_elem_of_lookup in Hq as [j Hj].
  assert (i = j); [|congruence].
  eapply NoDup_lookup; [exact Hnd| |];
    rewrite list_lookup_fmap; [by rewrite Hi|by rewrite Hj, Hid].
Qed.

(** With at least one query, [search_all_restaurants] raises
    [UnboundLocalError] exactly when no page of the first query is ever
    stored: the page limit is not positive, or the very first request
    fails.  In every other case it returns a list. *)
Theorem search_all_restaurants_unbound_places (query : string)
    (rest : list string) (max_pages_per_query : Z) :
  (search_all_restaurants search_restaurants (query :: rest)
     max_pages_per_query = RaisesUnboundLocalError
   ↔ max_pages_per_query <= 0
     ∨ search_restaurants 0%nat query None = SearchFails)
  ∧ (0 < max_pages_per_query →
     search_restaurants 0%nat query None ≠ SearchFails →
     ∃ all,
       search_all_restaurants search_restaurants (query :: rest)
         max_pages_per_query = Returns all).
Proof.
  unfold search_all_restaurants. cbn [query_loop].
  set (st0 := {| seen_ids := ∅; all_places := []; places := None;
                 calls := 0 |}).
  destruct (Z.to_nat max_pages_per_query) as [|pages] eqn:Hpages.
  { simpl. split; [|lia]. split; [intros _; left; lia|done]. }
  assert (Hpos : 0 < max_pages_per_query) by lia.
  cbn [page_loop]. simpl.
  destruct (search_restaurants 0%nat query None) as [|found next] eqn:Hcall.
  { simpl. split; [|done]. split; [by right|done]. }
  assert (Hassigned : is_Some (places
    (let (seen, all) := add_places found ∅ [] in
     match next with
     | Some token =>
         if decide (token = ""%string)
         then {| seen_ids := seen; all_places := all; places := Some found;
                 calls := 1 |}
         else page_loop search_restaurants pages query (Some token)
                {| seen_ids := seen; all_places := all;
                   places := Some found; calls := 1 |}
     | None => {| seen_ids := seen; all_places := all; places := Some found;
                  calls := 1 |}
     end))).
  { destruct (add_places found ∅ []) as [seen all].
    destruct next as [token|]; [|by eexists].
    destruct (decide (token = ""%string)); [by eexists|].
    apply page_loop_places_assigned. by eexists. }
  destruct Hassigned as [ps Hps]. rewrite Hps.
  destruct (query_loop_returns (S pages) rest
    (let (seen, all) := add_places found ∅ [] in
     match next with
     | Some token =>
         if decide (token = ""%string)
         then {| seen_ids := seen; all_places := all; places := Some found;
                 calls := 1 |}
         else page_loop search_restaurants pages query (Some token)
                {| seen_ids := seen; all_places := all;
                   places := Some found; calls := 1 |}
     | None => {| seen_ids := seen; all_places := all; places := Some found;
                  calls := 1 |}
     end)) as [all Hall]; [by rewrite Hps|].
  rewrite Hall. split; [|by intros _ _; exists all].
  split; [discriminate|]. intros [H|H]; [lia|discriminate].
Qed.

End SearchProofs.

(* ===================================================================== *)
(** * Properties of backend/run_weekly.py                                 *)
(* ===================================================================== *)

Section MenuProofs.
Import RunWeekly.

Local Abbreviation rating_of := (λ rv : review, default 0%Q (rv_rating rv)).

Lemma Qlt_bool_false (x y : Q) :
  Recommender.Qlt_bool x y = false ↔ (y <= x)%Q.
Proof.
  unfold Recommender.Qlt_bool. rewrite negb_false_iff. apply Qle_bool_iff.
Qed.

(** Once a review has been taken, the loop ends with some review. *)
Lemma best_review_loop_taken (reviews : list review) (best : list N)
    (best_rating : Q) :
  is_Some (best_review_loop reviews (Some best) best_rating).
Proof.
  revert best best_rating.
  induction reviews as [|rv rest IH]; intros best best_rating; simpl;
    [by eexists|].
  destruct (Recommender.Qlt_bool best_rating (rating_of rv)); apply IH.
Qed.

(** The loop returns the text of the first review whose rating exceeds
    the bar and is not exceeded by any other; without such a review it
    returns what it started with. *)
Lemma best_review_loop_result (reviews : list review)
    (best : option (list N)) (best_rating : Q) :
  (best_review_loop reviews best best_rating = best
   ∧ Forall (λ rv, (rating_of rv <= best_rating)%Q) reviews)
  ∨ ∃ rv, rv ∈ reviews
      ∧ best_review_loop reviews best best_rating = Some (review_text_of rv)
      ∧ (best_rating < rating_of rv)%Q
      ∧ Forall (λ rv', (rating_of rv' <= rating_of rv)%Q) reviews.
Proof.
  revert best best_rating.
  induction reviews as [|rv rest IH]; intros best best_rating; simpl.
  - left. by split.
  - destruct (Recommender.Qlt_bool best_rating (rating_of rv)) eqn:Hlt.
    + apply Qlt_bool_iff in Hlt. right.
      destruct (IH (Some (review_text_of rv)) (rating_of rv))
        as [[Hsame Hall]|(rv' & Hin & Hres & Hgt & Hall)].
      * exists rv. split; [left|]. split; [done|]. split; [done|].
        constructor; [apply Qle_refl|done].
      * exists rv'. split; [by right|]. split; [done|].
        split; [by eapply Qlt_trans|].
        constructor; [by apply Qlt_le_weak|done].
    + apply Qlt_bool_false in Hlt.
      destruct (IH best best_rating)
        as [[Hsame Hall]|(rv' & Hin & Hres & Hgt & Hall)].
      * left. split; [done|]. by constructor.
      * right. exists rv'. split; [by right|]. split; [done|].
        split; [done|]. constructor; [|done].
        apply Qlt_le_weak. by eapply Qle_lt_trans.
Qed.

(** [_extract_menu_from_reviews] looks at the first five reviews only.
    It returns nothing exactly when none of them has a rating above 0
    (an absent rating counts as 0); otherwise it returns the text of a
    top-rated one among the five, cut to 100 code points plus ["..."]
    when longer, so never more than 103 code points. *)
Theorem extract_menu_from_reviews_result (reviews : list review) :
  (_extract_menu_from_reviews reviews = None
   ↔ Forall (λ rv, (rating_of rv <= 0)%Q) (take 5 reviews))
  ∧ ∀ menu, _extract_menu_from_reviews reviews = Some menu →
      (length menu <= 103)%nat
      ∧ ∃ rv, rv ∈ take 5 reviews
          ∧ (0 < rating_of rv)%Q
          ∧ Forall (λ rv', (rating_of rv' <= rating_of rv)%Q) (take 5 reviews)
          ∧ (if (100 <? length (review_text_of rv))%nat
             then menu = take 100 (review_text_of rv) ++ ellipsis
             else menu = review_text_of rv).
Proof.
  unfold _extract_menu_from_reviews.
  destruct reviews as [|rv0 rest]; [by split; [split|]|].
  set (five := take 5 (rv0 :: rest)).
  destruct (best_review_loop_result five None 0)
    as [[Hnone Hall]|(rv & Hin & Hres & Hgt & Hall)].
  - rewrite Hnone. split; [done|]. discriminate.
  - rewrite Hres. split.
    + split.
      * by destruct (100 <? length (review_text_of rv))%nat.
      * intros Hle. rewrite Forall_forall in Hle. specialize (Hle rv Hin).
        exfalso. by eapply Qlt_not_le.
    + intros menu Hmenu.
      assert (Hlen : (length menu <= 103)%nat).
      { destruct (Nat.ltb_spec 100 (length (review_text_of rv)));
          injection Hmenu as <-; [|lia].
        rewrite length_app, length_take.
        change (length ellipsis) with 3%nat. lia. }
      split; [done|]. exists rv. repeat split; try done.
      by destruct (100 <? length (review_text_of rv))%nat;
        injection Hmenu as <-.
Qed.

End MenuProofs.

Section TravelDataProofs.
Import RoutesClient RunWeekly.
Variables (sin cos asin sqrt radians : Q → Q).
Variable (GOOGLE_API_KEY : string).
Variable (routes_api : request → http_outcome).
Variables (visited_ids recent_ids : gset string).
Variables (origin_lat origin_lng : Q).
Variable (cache_expiry_days : Z).

Local Abbreviation lookup_info :=
  (get_travel_info sin cos asin sqrt radians GOOGLE_API_KEY routes_api).
Local Abbreviation fill :=
  (travel_data_loop sin cos asin sqrt radians GOOGLE_API_KEY routes_api
     visited_ids recent_ids origin_lat origin_lng cache_expiry_days).

(** Whatever [get_travel_info] returns has a time: a cached entry is
    served only with one, and an estimate always has one. *)
Lemma get_travel_info_time_known (place_id : string)
    (o_lat o_lng d_lat d_lng : Q) (expiry_days : Z) (w w' : world)
    (info : travel_entry) :
  lookup_info place_id o_lat o_lng d_lat d_lng expiry_days w = (Ok info, w') →
  is_Some (travel_time_minutes info).
Proof.
  rewrite get_travel_info_unfold. cbv zeta.
  rewrite cache_check_outcome. cbv zeta.
  assert (Hmiss : ∀ w1,
    compute_and_store sin cos asin sqrt radians GOOGLE_API_KEY routes_api
      (default ∅ (station_cache_file w)) place_id o_lat o_lng d_lat d_lng w1
      = (Ok info, w') →
    is_Some (travel_time_minutes info)).
  { intros w1.
    destruct (compute_travel_time sin cos asin sqrt radians GOOGLE_API_KEY
                routes_api o_lat o_lng d_lat d_lng (logged_call place_id w1))
      as [[r|e] w2] eqn:Hest.
    - rewrite (compute_and_store_ok _ _ _ _ _ _ _ _ _ _ _ _ _ _ _ _ Hest).
      intros [= <- _]. simpl. by apply estimate_time_known in Hest as [? _].
    - apply (compute_and_store_raise sin cos asin sqrt radians GOOGLE_API_KEY
               routes_api (default ∅ (station_cache_file w))) in Hest.
      rewrite Hest. discriminate. }
  destruct (default ∅ (station_cache_file w) !! place_id) as [entry|];
    [|apply Hmiss].
  destruct (cached_at entry) as [[|t|t]|]; try discriminate; [|apply Hmiss].
  destruct (_ <? _); simpl; [|apply Hmiss].
  destruct (travel_time_minutes entry) as [m|] eqn:Htime; simpl;
    [|apply Hmiss].
  intros [= <- _]. by rewrite Htime.
Qed.

(** Step 4 never raises.  Every entry it adds to [travel_data] belongs
    to a candidate with a non-empty id and non-zero coordinates that is
    neither visited nor recent, and carries a time; so the filter's
    clause for a null time never applies to an entry made here. *)
Theorem travel_data_loop_entries (candidates : list candidate)
    (travel_data : gmap string travel_entry) (w : world) :
  ∃ travel_data' w',
    fill candidates travel_data w = (Ok travel_data', w')
    ∧ ∀ id info, travel_data' !! id = Some info →
        travel_data !! id = Some info
        ∨ (is_Some (travel_time_minutes info)
           ∧ id ≠ ""%string
           ∧ (id ∉ visited_ids) ∧ (id ∉ recent_ids)
           ∧ ∃ c, c ∈ candidates
               ∧ Recommender.get_id (c_place c) = id
               ∧ truthy_float (c_latitude c) = true
               ∧ truthy_float (c_longitude c) = true).
Proof.
  revert travel_data w.
  induction candidates as [|c rest IH]; intros travel_data w.
  - exists travel_data, w. split; [done|]. by left.
  - cbn [travel_data_loop].
    assert (Hskip : ∃ travel_data' w',
      fill rest travel_data w = (Ok travel_data', w')
      ∧ ∀ id info, travel_data' !! id = Some info →
          travel_data !! id = Some info
          ∨ (is_Some (travel_time_minutes info)
             ∧ id ≠ ""%string
             ∧ (id ∉ visited_ids) ∧ (id ∉ recent_ids)
             ∧ ∃ c', c' ∈ c :: rest
                 ∧ Recommender.get_id (c_place c') = id
                 ∧ truthy_float (c_latitude c') = true
                 ∧ truthy_float (c_longitude c') = true)).
    { destruct (IH travel_data w) as (td' & w' & Hrun & Hent).
      exists td', w'. split; [done|]. intros id info Hid.
      destruct (Hent id info Hid) as [H|(H1 & H2 & H3 & H4 & c' & Hc' & H5)];
        [by left|right].
      repeat split; try done. exists c'. split; [by right|done]. }
    destruct (bool_decide (Recommender.get_id (c_place c) ≠ ""%string))
      eqn:Hid; [|exact Hskip].
    destruct (truthy_float (c_latitude c)) eqn:Hlat; [|exact Hskip].
    destruct (truthy_float (c_longitude c)) eqn:Hlng; [|exact Hskip].
    simpl.
    destruct (bool_decide (Recommender.get_id (c_place c) ∈ visited_ids))
      eqn:Hv; [exact Hskip|].
    destruct (bool_decide (Recommender.get_id (c_place c) ∈ recent_ids))
      eqn:Hr; [exact Hskip|].
    simpl.
    apply bool_decide_eq_true in Hid.
    apply bool_decide_eq_false in Hv, Hr.
    destruct (lookup_info (Recommender.get_id (c_place c)) origin_lat
                origin_lng (default 0%Q (c_latitude c))
                (default 0%Q (c_longitude c)) cache_expiry_days w)
      as [[info|e] w1] eqn:Hlook.
    + destruct (IH (<[Recommender.get_id (c_place c) := info]> travel_data) w1)
        as (td' & w' & Hrun & Hent).
      exists td', w'. split; [done|]. intros id info' Hid'.
      destruct (Hent id info' Hid')
        as [H|(H1 & H2 & H3 & H4 & c' & Hc' & H5)].
      * destruct (decide (Recommender.get_id (c_place c) = id)) as [<-|Hne].
        -- rewrite lookup_insert_eq in H. injection H as <-. right.
           split; [by eapply get_travel_info_time_known|].
           repeat split; try done. exists c. split; [left|done].
        -- rewrite lookup_insert_ne in H by done. by left.
      * right. repeat split; try done. exists c'. split; [by right|done].
    + destruct (IH travel_data w1) as (td' & w' & Hrun & Hent).
      exists td', w'. split; [done|]. intros id info' Hid'.
      destruct (Hent id info' Hid')
        as [H|(H1 & H2 & H3 & H4 & c' & Hc' & H5)]; [by left|right].
      repeat split; try done. exists c'. split; [by right|done].
Qed.

End TravelDataProofs.

(* ===================================================================== *)
(** * Properties of backend/sheets_client.py                              *)
(* ===================================================================== *)

Section SheetsProofs.
Import SheetsClient.
Variable (upper : string → string).



Lemma visited_rows_elem (records : list sheet_row) (acc ids : gset string) :
  visited_rows upper records acc = Some ids →
  ∀ id, id ∈ ids
    ↔ id ∈ acc
      ∨ ∃ row, row ∈ records ∧ marked_visited upper row = true
          ∧ row_place_id row = Some id.
Proof.
  revert acc. induction records as [|row rest IH]; intros acc; simpl.
  - intros [= <-] id. split; [by left|].
    intros [H|(row & Hrow & _)]; [done|by inversion Hrow].
  - destruct (marked_visited upper row) eqn:Hmark.
    + destruct (row_place_id row) as [id0|] eqn:Hid; [|discriminate].
      intros Hrun id. rewrite (IH _ Hrun), elem_of_union, elem_of_singleton.
      split.
      * intros [[H | ->]|(row' & Hrow' & Hm & Hi)].
        -- by left.
        -- right. exists row. split; [left|done].
        -- right. exists row'. split; [by right|done].
      * intros [H|(row' & Hrow' & Hm & Hi)]; [by left; left|].
        apply elem_of_cons in Hrow' as [->|Hrow'].
        -- left. right. congruence.
        -- right. by exists row'.
    + intros Hrun id. rewrite (IH _ Hrun). split.
      * intros [H|(row' & Hrow' & Hm & Hi)]; [by left|].
        right. exists row'. split; [by right|done].
      * intros [H|(row' & Hrow' & Hm & Hi)]; [by left|].
        apply elem_of_cons in Hrow' as [->|Hrow']; [congruence|].
        right. by exists row'.
Qed.

Lemma visited_rows_raises (records : list sheet_row) (acc : gset string) :
  visited_rows upper records acc = None
  ↔ ∃ row, row ∈ records ∧ marked_visited upper row = true
      ∧ row_place_id row = None.
Proof.
  revert acc. induction records as [|row rest IH]; intros acc; simpl.
  - split; [discriminate|]. intros (row & Hrow & _). by inversion Hrow.
  - destruct (marked_visited upper row) eqn:Hmark.
    + destruct (row_place_id row) as [id0|] eqn:Hid.
      * rewrite IH. split.
        -- intros (row' & Hrow' & H). exists row'. split; [by right|done].
        -- intros (row' & Hrow' & Hm & Hi).
           apply elem_of_cons in Hrow' as [->|Hrow']; [congruence|].
           by exists row'.
      * split; [|done]. intros _. exists row. split; [left|done].
    + rewrite IH. split.
      * intros (row' & Hrow' & H). exists row'. split; [by right|done].
      * intros (row' & Hrow' & Hm & Hi).
        apply elem_of_cons in Hrow' as [->|Hrow']; [congruence|].
        by exists row'.
Qed.

(** What the worksheet contributes is all or nothing: the ids of all
    rows marked visited, unless such a row has no [place_id] column, in
    which case (as when reading fails) it contributes no id at all. *)
Theorem get_visited_from_sheet_all_or_nothing (records : list sheet_row) :
  let ids := get_visited_from_sheet upper (SheetRecords records) in
  ((∃ row, row ∈ records ∧ marked_visited upper row = true
      ∧ row_place_id row = None) → ids = ∅)
  ∧ ((∀ row, row ∈ records → marked_visited upper row = true →
        is_Some (row_place_id row)) →
     ∀ id, id ∈ ids
       ↔ ∃ row, row ∈ records ∧ marked_visited upper row = true
           ∧ row_place_id row = Some id)
  ∧ get_visited_from_sheet upper SheetFails = ∅.
Proof.
  intros ids. subst ids. unfold get_visited_from_sheet.
  split; [|split; [|done]].
  - intros Hbad. apply (visited_rows_raises records ∅) in Hbad.
    by rewrite Hbad.
  - intros Hgood id.
    destruct (visited_rows upper records ∅) as [ids|] eqn:Hrun.
    + simpl. rewrite (visited_rows_elem _ _ _ Hrun). split.
      * intros [H|H]; [by apply not_elem_of_empty in H|done].
      * by right.
    + apply visited_rows_raises in Hrun as (row & Hrow & Hm & Hi).
      destruct (Hgood row Hrow Hm) as [id' Hid']. congruence.
Qed.


End SheetsProofs.

(* ===================================================================== *)
(** * What the program's own files keep true                              *)
(* ===================================================================== *)

Section CacheInvariant.
Import RoutesClient.
Variables (sin cos asin sqrt radians : Q → Q).
Variable (GOOGLE_API_KEY : string).
Variable (routes_api : request → http_outcome).

Local Abbreviation estimate :=
  (compute_travel_time sin cos asin sqrt radians GOOGLE_API_KEY routes_api).
Local Abbreviation lookup_info :=
  (get_travel_info sin cos asin sqrt radians GOOGLE_API_KEY routes_api).

(** On a cache in which every entry has a time and an aware stamp (an
    empty or missing file is one), [get_travel_info] leaves such a cache
    behind whatever happens, and an exception it raises is one the
    estimator raised: the validity check itself never fails. *)
Theorem get_travel_info_keeps_cache_well_stamped (place_id : string)
    (origin_lat origin_lng dest_lat dest_lng : Q) (expiry_days : Z)
    (w : world) :
  well_stamped (default ∅ (station_cache_file w)) →
  let outcome :=
    lookup_info place_id origin_lat origin_lng dest_lat dest_lng
      expiry_days w in
  well_stamped (default ∅ (station_cache_file outcome.2))
  ∧ ∀ e, outcome.1 = Raise e →
      ∃ w1, (estimate origin_lat origin_lng dest_lat dest_lng w1).1 = Raise e.
Proof.
  intros Hwf outcome. subst outcome.
  rewrite get_travel_info_unfold. cbv zeta.
  rewrite cache_check_outcome. cbv zeta.
  assert (Hmiss : ∀ w1, station_cache_file w1 = station_cache_file w →
    let outcome :=
      compute_and_store sin cos asin sqrt radians GOOGLE_API_KEY routes_api
        (default ∅ (station_cache_file w)) place_id
        origin_lat origin_lng dest_lat dest_lng w1 in
    well_stamped (default ∅ (station_cache_file outcome.2))
    ∧ ∀ e, outcome.1 = Raise e →
        ∃ w2, (estimate origin_lat origin_lng dest_lat dest_lng w2).1
              = Raise e).
  { intros w1 Hfile. cbv zeta.
    destruct (estimate origin_lat origin_lng dest_lat dest_lng
                (logged_call place_id w1)) as [[r|e] w2] eqn:Hest.
    - rewrite (compute_and_store_ok _ _ _ _ _ _ _ _ _ _ _ _ _ _ _ _ Hest).
      simpl. split; [|discriminate].
      intros id entry Hlook.
      destruct (decide (place_id = id)) as [<-|Hne].
      + rewrite lookup_insert_eq in Hlook. injection Hlook as <-. simpl.
        split; [by apply estimate_time_known in Hest as [? _]|by eexists].
      + rewrite lookup_insert_ne in Hlook by done. by apply (Hwf id).
    - pose proof Hest as Hraise.
      apply (compute_and_store_raise sin cos asin sqrt radians GOOGLE_API_KEY
               routes_api (default ∅ (station_cache_file w))) in Hraise.
      rewrite Hraise. simpl.
      pose proof (estimate_keeps_file sin cos asin sqrt radians GOOGLE_API_KEY
                    routes_api origin_lat origin_lng dest_lat dest_lng
                    (logged_call place_id w1)) as [Hkeep _].
      rewrite Hest in Hkeep. simpl in Hkeep. rewrite Hkeep, Hfile.
      split; [done|]. intros e' [= <-].
      exists (logged_call place_id w1). by rewrite Hest. }
  destruct (default ∅ (station_cache_file w) !! place_id) as [entry|]
    eqn:Hentry; [|by apply Hmiss].
  destruct (Hwf place_id entry Hentry) as [Htime [t Hat]]. rewrite Hat.
  destruct (_ && _); [|by apply Hmiss].
  simpl. split; [done|discriminate].
Qed.

End CacheInvariant.

Lemma get_travel_info_keeps_cache_well_stamped_witness :
  well_stamped
    (default ∅
       (RoutesClient.station_cache_file
          (RoutesClient.get_travel_info
             (const_fn 0) (const_fn 0) (const_fn (1 # 12742)) (const_fn 0)
             (const_fn 0) "" (λ _, RoutesClient.HttpFails HTTPError)
             "p" 35 139 (3501 # 100) 139 90 (world_at 0 None)).2)).
Proof.
  destruct (get_travel_info_keeps_cache_well_stamped
    (const_fn 0) (const_fn 0) (const_fn (1 # 12742)) (const_fn 0) (const_fn 0)
    "" (λ _, RoutesClient.HttpFails HTTPError)
    "p" 35 139 (3501 # 100) 139 90 (world_at 0 None)) as [Hwf _].
  - intros id entry Hlook. simpl in Hlook. by rewrite lookup_empty in Hlook.
  - exact Hwf.
Defined.

(** A history whose records all carry an aware timestamp (an empty or
    missing file is one) keeps this property when the week made by
    [generate_current_json] is recorded with [update_history]; so
    [load_recent_history] returns, for every clock and window, on a
    history that only these functions wrote. *)
Theorem written_history_stays_readable
    (history_file : option (list Recommender.week_record))
    (generated : Z) (restaurants : list SiteGenerator.restaurant)
    (week_label : string) :
  Forall timestamped (default [] history_file) →
  let history :=
    SiteGenerator.update_history
      (generate_current_json generated restaurants week_label)
      history_file in
  Forall timestamped history
  ∧ ∀ now weeks,
      ∃ recent_ids,
        Recommender.load_recent_history now (Some history) weeks
        = Ok recent_ids.
Proof.
  intros Hwf history.
  assert (Hwf' : Forall timestamped history).
  { constructor; [by exists generated|done]. }
  split; [done|]. intros now weeks.
  unfold Recommender.load_recent_history.
  destruct (load_recent_loop_elem (now - weeks * week_us) history ∅ Hwf')
    as (ids & Hrun & Hids).
  by exists ids.
Qed.

Lemma written_history_stays_readable_witness :
  Forall timestamped
    (SiteGenerator.update_history (generate_current_json 990 [] "w") None).
Proof.
  destruct (written_history_stays_readable None 990 [] "w") as [Hwf _].
  - constructor.
  - exact Hwf.
Defined.

(* ===================================================================== *)
(** * Instances of the further properties                                 *)
(* ===================================================================== *)


(** An empty cache file and a destination 1 km away: the walking
    estimate is stamped with the clock's 0 and returned. *)
Lemma miss_stores_stamped_estimate_witness :
  (RoutesClient.get_travel_info
     (const_fn 0) (const_fn 0) (const_fn (1 # 12742)) (const_fn 0) (const_fn 0)
     "" (λ _, RoutesClient.HttpFails HTTPError)
     "p" 35 139 (3501 # 100) 139 90 (world_at 0 None)).1
  = Ok (walk_entry 12 (Some (IsoAware 0))).
Proof.
  destruct (miss_stores_stamped_estimate
    (const_fn 0) (const_fn 0) (const_fn (1 # 12742)) (const_fn 0) (const_fn 0)
    "" (λ _, RoutesClient.HttpFails HTTPError)
    "p" 35 139 (3501 # 100) 139 90
    (world_at 0 None) (world_at 0 None)
    (logged_call "p" (world_at 0 None))
    (walk_entry 12 None)) as (Hres & _).
  - reflexivity.
  - reflexivity.
  - exact Hres.
Defined.

(** The same call, then a second one five microseconds later on the
    file the first one wrote: answered from the cache. *)
Lemma stored_estimate_is_served_witness :
  served_from_cache "p" (walk_entry 12 (Some (IsoAware 0)))
    (world_at 5 (Some (<["p"%string := walk_entry 12 (Some (IsoAware 0))]> ∅)))
    (RoutesClient.get_travel_info
       (const_fn 0) (const_fn 0) (const_fn (1 # 12742)) (const_fn 0)
       (const_fn 0) "" (λ _, RoutesClient.HttpFails HTTPError)
       "p" 35 139 (3501 # 100) 139 30
       (world_at 5
          (Some (<["p"%string := walk_entry 12 (Some (IsoAware 0))]> ∅)))).
Proof.
  apply (stored_estimate_is_served
    (const_fn 0) (const_fn 0) (const_fn (1 # 12742)) (const_fn 0) (const_fn 0)
    "" (λ _, RoutesClient.HttpFails HTTPError)
    "p" 35 139 (3501 # 100) 139 90 30
    (world_at 0 None) (world_at 0 None)
    (logged_call "p" (world_at 0 None))
    (world_at 5 (Some (<["p"%string := walk_entry 12 (Some (IsoAware 0))]> ∅)))
    (walk_entry 12 None)).
  - reflexivity.
  - reflexivity.
  - reflexivity.
  - reflexivity.
Defined.

(** An entry with a malformed stamp: [ValueError], whatever the rest. *)
Lemma unparseable_stamp_blocks_refresh_witness :
  (RoutesClient.get_travel_info
     (const_fn 0) (const_fn 0) (const_fn 0) (const_fn 0) (const_fn 0)
     "key" (λ _, RoutesClient.HttpOk [])
     "p" 35 139 35 139 90
     (world_at 0 (Some {[ "p"%string := walk_entry 12 (Some IsoMalformed) ]}))).1
  = Raise ValueError.
Proof.
  destruct (unparseable_stamp_blocks_refresh
    (const_fn 0) (const_fn 0) (const_fn 0) (const_fn 0) (const_fn 0)
    "key" (λ _, RoutesClient.HttpOk [])
    "p" 35 139 35 139 90
    (world_at 0 (Some {[ "p"%string := walk_entry 12 (Some IsoMalformed) ]}))
    (walk_entry 12 (Some IsoMalformed))) as (Hres & _).
  - apply lookup_singleton_eq.
  - by left.
  - exact Hres.
Defined.

(** One query, one page with the same place twice: it is kept once. *)
Lemma search_all_restaurants_unique_ids_witness :
  NoDup (Recommender.get_id <$> [place_rated "a" 120 4]).
Proof.
  destruct (search_all_restaurants_unique_ids
    (λ _ _ _, PlacesClient.SearchOk
                [place_rated "a" 120 4; place_rated "a" 120 4] None)
    ["sushi"%string] 3 [place_rated "a" 120 4]) as (Hnd & _).
  - vm_compute. reflexivity.
  - exact Hnd.
Defined.

(** The first request fails: reading [places] raises; with a first page
    stored, a later failure is passed over. *)
Example search_all_restaurants_runs :
  PlacesClient.search_all_restaurants (λ _ _ _, PlacesClient.SearchFails)
    ["sushi"; "ramen"]%string 3
  = PlacesClient.RaisesUnboundLocalError
  ∧ PlacesClient.search_all_restaurants
      (λ n _ _, match n with
                | O => PlacesClient.SearchOk [place_rated "a" 120 4]
                         (Some "next"%string)
                | _ => PlacesClient.SearchFails
                end)
      ["sushi"; "ramen"]%string 3
    = PlacesClient.Returns [place_rated "a" 120 4].
Proof. split; vm_compute; reflexivity. Qed.

(** Of three reviews the best rated is quoted; reviews rated 0 or not
    rated give nothing. *)
Example extract_menu_from_reviews_runs :
  RunWeekly._extract_menu_from_reviews
    [ {| RunWeekly.rv_rating := Some 3%Q;
         RunWeekly.rv_text := Some (RunWeekly.TextDict (Some [97; 98]%N)) |};
      {| RunWeekly.rv_rating := Some 5%Q;
         RunWeekly.rv_text := Some (RunWeekly.TextDict (Some [99]%N)) |};
      {| RunWeekly.rv_rating := Some 5%Q;
         RunWeekly.rv_text := Some (RunWeekly.TextOther [100]%N) |} ]
  = Some [99]%N
  ∧ RunWeekly._extract_menu_from_reviews
      [ {| RunWeekly.rv_rating := Some 0%Q;
           RunWeekly.rv_text := Some (RunWeekly.TextDict (Some [97]%N)) |};
        {| RunWeekly.rv_rating := None;
           RunWeekly.rv_text := Some (RunWeekly.TextDict (Some [98]%N)) |} ]
    = None.
Proof. split; reflexivity. Qed.
